(** * partitionhelper: the Partitioner of csi-baremetal

    A shallow embedding of [pkg/base/linuxutils/partitionhelper/partition_helper.go]
    together with the parts of Go's [strings], [strconv], [fmt] and [errors]
    packages that it calls.

    Go strings are byte strings: a [string] here is a sequence of [ascii],
    each one byte.  The command executor is an interface of the repository
    that runs external tools; it is modelled by explicit state passing, the
    state standing for the executor and the world behind it. *)

From Stdlib Require Import String Ascii List Bool Arith Lia.
Import ListNotations.
Open Scope list_scope.
Open Scope string_scope.
Open Scope nat_scope.

(** What Go takes from its Unicode tables.  The three functions are only
    reached on input that is outside the ASCII fragment modelled below (or,
    for [explode], on an empty separator), and nothing is assumed about
    them. *)
Class UnicodeTables : Type := {
  (** [strings.Map(unicode.ToLower, s)], used by [strings.ToLower] when [s]
      has a byte >= 0x80 *)
  MapToLower : string -> string;
  (** [strconv.Quote] on a string that has a byte >= 0x80 *)
  QuoteRunes : string -> string;
  (** [strings.explode(s, -1)]: the UTF-8 sequences of [s] *)
  explode : string -> list string
}.

(** the value of a byte *)
Definition ord (c : ascii) : nat := nat_of_ascii c.

(** the double quote and the line feed, which a literal cannot hold *)
Definition dquote : ascii := "034"%char.
Definition LF : ascii := "010"%char.

Module utf8.
Definition RuneSelf : nat := 128.
End utf8.

(** ** package strings *)
Module strings.

(** [s[:n]] *)
Fixpoint take (n : nat) (s : string) : string :=
  match n, s with
  | S n', String c s' => String c (take n' s')
  | _, _ => EmptyString
  end.

(** [s[n:]] *)
Fixpoint drop (n : nat) (s : string) : string :=
  match n, s with
  | S n', String _ s' => drop n' s'
  | _, _ => s
  end.

Fixpoint rev (s : string) : string :=
  match s with
  | EmptyString => EmptyString
  | String c s' => rev s' ++ String c EmptyString
  end.

Fixpoint mapBytes (f : ascii -> ascii) (s : string) : string :=
  match s with
  | EmptyString => EmptyString
  | String c s' => String (f c) (mapBytes f s')
  end.

Fixpoint allBytes (f : ascii -> bool) (s : string) : bool :=
  match s with
  | EmptyString => true
  | String c s' => f c && allBytes f s'
  end.

Fixpoint HasPrefix (s prefix : string) : bool :=
  match prefix, s with
  | EmptyString, _ => true
  | String _ _, EmptyString => false
  | String a prefix', String b s' => Ascii.eqb a b && HasPrefix s' prefix'
  end.

(** [Index] returns the index of the first instance of [substr] in [s];
    [None] stands for Go's -1. *)
Fixpoint Index (s substr : string) : option nat :=
  if HasPrefix s substr then Some 0
  else match s with
       | EmptyString => None
       | String _ s' => option_map S (Index s' substr)
       end.

(** [Contains(s, substr)] is [Index(s, substr) >= 0]. *)
Definition Contains (s substr : string) : bool :=
  match Index s substr with
  | Some _ => true
  | None => false
  end.

(** The loop of [Count] for a non-empty [substr]:
    [for { i := Index(s, substr); if i == -1 { return n }; n++; s = s[i+len(substr):] }].
    Every round removes at least one byte, so [fuel] above the length of
    [s] is never used up. *)
Fixpoint countLoop (fuel : nat) (s substr : string) (n : nat) : nat :=
  match fuel with
  | 0 => n
  | S fuel' =>
      match Index s substr with
      | None => n
      | Some i => countLoop fuel' (drop (i + String.length substr) s) substr (S n)
      end
  end.

Definition Count `{UnicodeTables} (s substr : string) : nat :=
  if (substr =? "")%string then List.length (explode s) + 1
  else countLoop (S (String.length s)) s substr 0.

(** The loop of [genSplit] with [sepSave = 0]:
    [for i < n { m := Index(s, sep); if m < 0 { break }; a[i] = s[:m]; s = s[m+len(sep):]; i++ }; a[i] = s].
    The argument is the number of rounds left, [n - i]. *)
Fixpoint genSplitLoop (rounds : nat) (s sep : string) : list string :=
  match rounds with
  | 0 => [s]
  | S rounds' =>
      match Index s sep with
      | None => [s]
      | Some m => take m s :: genSplitLoop rounds' (drop (m + String.length sep) s) sep
      end
  end.

(** [Split(s, sep)] is [genSplit(s, sep, 0, -1)]. *)
Definition Split `{UnicodeTables} (s sep : string) : list string :=
  if (sep =? "")%string then explode s
  else
    let n := Count s sep + 1 in
    let n := if String.length s + 1 <? n then String.length s + 1 else n in
    genSplitLoop (n - 1) s sep.

(** [asciiSpace]: the bytes '\t', '\n', '\v', '\f', '\r' and ' ' *)
Definition asciiSpace (c : ascii) : bool :=
  let n := ord c in
  (n =? 9) || (n =? 10) || (n =? 11) || (n =? 12) || (n =? 13) || (n =? 32).

(** The white space of [unicode.IsSpace] beyond ASCII, by UTF-8 encoding.
    Two bytes: U+0085 (C2 85) and U+00A0 (C2 A0). *)
Definition isSpace2 (a b : ascii) : bool :=
  (ord a =? 194) && ((ord b =? 133) || (ord b =? 160)).

(** Three bytes: U+1680 (E1 9A 80), U+2000..U+200A (E2 80 80..8A),
    U+2028, U+2029 (E2 80 A8, A9), U+202F (E2 80 AF), U+205F (E2 81 9F)
    and U+3000 (E3 80 80). *)
Definition isSpace3 (a b c : ascii) : bool :=
  let x := ord a in
  let y := ord b in
  let z := ord c in
  ((x =? 225) && (y =? 154) && (z =? 128))
  || ((x =? 226) && (y =? 128)
      && (((128 <=? z) && (z <=? 138)) || (z =? 168) || (z =? 169) || (z =? 175)))
  || ((x =? 226) && (y =? 129) && (z =? 159))
  || ((x =? 227) && (y =? 128) && (z =? 128)).

(** [TrimLeftFunc(s, unicode.IsSpace)].  Go decodes one rune after the
    other from the left and stops at the first that is not white space; an
    invalid byte decodes to U+FFFD, which is not.  A decoded rune is white
    space exactly when the bytes in front are the encoding of a white-space
    rune, so the loop removes such encodings while there is one. *)
Fixpoint TrimLeftSpace (s : string) : string :=
  match s with
  | EmptyString => s
  | String a s1 =>
      if asciiSpace a then TrimLeftSpace s1
      else match s1 with
           | EmptyString => s
           | String b s2 =>
               if isSpace2 a b then TrimLeftSpace s2
               else match s2 with
                    | EmptyString => s
                    | String c s3 => if isSpace3 a b c then TrimLeftSpace s3 else s
                    end
           end
  end.

(** The same loop on the reversed string: [DecodeLastRuneInString] yields a
    white-space rune exactly when the string ends with its encoding. *)
Fixpoint TrimLeftSpaceRev (s : string) : string :=
  match s with
  | EmptyString => s
  | String a s1 =>
      if asciiSpace a then TrimLeftSpaceRev s1
      else match s1 with
           | EmptyString => s
           | String b s2 =>
               if isSpace2 b a then TrimLeftSpaceRev s2
               else match s2 with
                    | EmptyString => s
                    | String c s3 => if isSpace3 c b a then TrimLeftSpaceRev s3 else s
                    end
           end
  end.

(** [TrimRightFunc(s, unicode.IsSpace)] *)
Definition TrimRightSpace (s : string) : string :=
  rev (TrimLeftSpaceRev (rev s)).

(** [TrimSpace(s)]: [s] without its leading and trailing white space.  The
    fast path of Go for ASCII and its fall-back to [TrimFunc] and
    [TrimRightFunc] give the same slice: the left end is trimmed first, the
    right end of what remains second. *)
Definition TrimSpace (s : string) : string :=
  TrimRightSpace (TrimLeftSpace s).

Definition isASCII (s : string) : bool :=
  allBytes (fun c => ord c <? utf8.RuneSelf) s.

(** ['A' <= c && c <= 'Z'] gives [c += 'a' - 'A'] *)
Definition lowerByte (c : ascii) : ascii :=
  if (65 <=? ord c) && (ord c <=? 90) then ascii_of_nat (ord c + 32) else c.

(** [ToLower(s)]: byte by byte on an ASCII string, [Map(unicode.ToLower, s)]
    otherwise. *)
Definition ToLower `{UnicodeTables} (s : string) : string :=
  if isASCII s then mapBytes lowerByte s else MapToLower s.

End strings.

(** ** package strconv *)
Module strconv.

Definition lowerhex : string := "0123456789abcdef".

Definition hexDigit (n : nat) : ascii :=
  match String.get n lowerhex with
  | Some c => c
  | None => "0"%char
  end.

(** [appendEscapedRune] for a rune below [utf8.RuneSelf], with the double
    quote as quote and neither [ASCIIonly] nor [graphicOnly].  [IsPrint]
    holds of the ASCII runes 0x20..0x7E. *)
Definition escapeByte (c : ascii) : string :=
  let r := ord c in
  if (r =? 34) || (r =? 92) then String "\"%char (String c EmptyString)
  else if (32 <=? r) && (r <? 127) then String c EmptyString
  else if r =? 7 then "\a"
  else if r =? 8 then "\b"
  else if r =? 12 then "\f"
  else if r =? 10 then "\n"
  else if r =? 13 then "\r"
  else if r =? 9 then "\t"
  else if r =? 11 then "\v"
  else String "\"%char (String "x"%char
         (String (hexDigit (r / 16)) (String (hexDigit (r mod 16)) EmptyString))).

Fixpoint escapeBytes (s : string) : string :=
  match s with
  | EmptyString => EmptyString
  | String c s' => escapeByte c ++ escapeBytes s'
  end.

(** [Quote(s)]: a double-quoted Go string literal for [s]. *)
Definition Quote `{UnicodeTables} (s : string) : string :=
  if strings.isASCII s
  then String dquote (escapeBytes s ++ String dquote EmptyString)
  else QuoteRunes s.

End strconv.

(** ** package errors *)
Module errors.

(** A Go [error] is any value with a method [Error() string]; the model
    keeps the message.  A nil error is [None] of [option error]. *)
Record error : Type := New { Error : string }.

End errors.
Export errors.

(** ** package fmt *)
Module fmt.

Inductive operand : Type :=
| Str (s : string)
| Err (e : error).

Inductive verbState : Type :=
| Text          (* outside a verb *)
| Percent       (* after '%' *)
| PercentSharp. (* after "%#" *)

(** An operand under a verb.  The package uses [%s] with strings, [%#v]
    with strings and [%v] with an error; [%s] and [%v] print a string as it
    is and an error by its [Error] method, [%#v] prints a string as
    [strconv.Quote] does.  No other verb occurs in the package; for one the
    model prints a marker in the form of Go's report of a bad verb. *)
Definition printArg `{UnicodeTables} (sharp : bool) (verb : ascii) (a : operand) : string :=
  match a with
  | Str s =>
      if Ascii.eqb verb "s" then s
      else if Ascii.eqb verb "v" then (if sharp then strconv.Quote s else s)
      else "%!" ++ String verb "(string=" ++ s ++ ")"
  | Err e =>
      if Ascii.eqb verb "s" || (Ascii.eqb verb "v" && negb sharp) then Error e
      else "%!" ++ String verb "(error=" ++ Error e ++ ")"
  end.

(** [doPrintf] restricted to the flag [#] and the verbs above; [%%] prints
    a percent sign, a verb without operand prints [%!verb(MISSING)], a
    format that ends inside a verb prints [%!(NOVERB)].  Width, precision,
    the other flags and the report of operands left over are not part of
    the model, none occurs in the package. *)
Fixpoint doPrintf `{UnicodeTables} (st : verbState) (format : string) (a : list operand)
  : string :=
  match format with
  | EmptyString =>
      match st with
      | Text => EmptyString
      | _ => "%!(NOVERB)"
      end
  | String c rest =>
      match st with
      | Text =>
          if Ascii.eqb c "%" then doPrintf Percent rest a
          else String c (doPrintf Text rest a)
      | Percent =>
          if Ascii.eqb c "%" then String "%"%char (doPrintf Text rest a)
          else if Ascii.eqb c "#" then doPrintf PercentSharp rest a
          else match a with
               | [] => "%!" ++ String c "(MISSING)" ++ doPrintf Text rest a
               | x :: a' => printArg false c x ++ doPrintf Text rest a'
               end
      | PercentSharp =>
          if Ascii.eqb c "%" then String "%"%char (doPrintf Text rest a)
          else if Ascii.eqb c "#" then doPrintf PercentSharp rest a
          else match a with
               | [] => "%!" ++ String c "(MISSING)" ++ doPrintf Text rest a
               | x :: a' => printArg true c x ++ doPrintf Text rest a'
               end
      end
  end.

Definition Sprintf `{UnicodeTables} (format : string) (a : list operand) : string :=
  doPrintf Text format a.

(** [Errorf] without [%w] is [errors.New(Sprintf(format, a...))]. *)
Definition Errorf `{UnicodeTables} (format : string) (a : list operand) : error :=
  errors.New (Sprintf format a).

End fmt.
Export fmt(operand, Str, Err).

(** ** package util *)
Module util.

(** Modelled from the spec: [util.ContainsString] of pkg/base/util is not
    among the sources.  The spec gives it as the membership test of a
    string in a fixed list of strings. *)
Fixpoint ContainsString (slice : list string) (str : string) : bool :=
  match slice with
  | [] => false
  | x :: slice' => (x =? str)%string || ContainsString slice' str
  end.

End util.

(** ** package command *)
Module command.

(** Modelled from the spec: the interface [command.CmdExecutor] of
    pkg/base/command is not among the sources.  Its one method is
    [RunCmd(cmd) (stdout, stderr string, err error)], which runs an external
    tool.  A call takes the state of the executor and of the world it acts
    on, and returns the next one. *)
Record CmdExecutor (St : Type) : Type := {
  RunCmd : string -> St -> (string * string * option error) * St
}.
Arguments RunCmd {St} _ _ _.

End command.
Export command(CmdExecutor, RunCmd).

(** ** The monad of the methods: state passing *)

Definition M (St A : Type) : Type := St -> A * St.

Definition ret {St A : Type} (a : A) : M St A := fun st => (a, st).

Definition bind {St A B : Type} (m : M St A) (k : A -> M St B) : M St B :=
  fun st => let (a, st') := m st in k a st'.

Notation "' pat <- m ;; k" :=
  (bind m (fun x => match x with pat => k end))
  (at level 61, pat pattern, m at next level, right associativity).

(** ** package partitionhelper *)

(** [PartitionGPT] is the const for GPT partition table *)
Definition PartitionGPT : string := "gpt".
(** names of the system utils *)
Definition parted : string := "parted ".
Definition partprobe : string := "partprobe ".
Definition sgdisk : string := "sgdisk ".

Definition PartprobeDeviceCmdTmpl : string := partprobe ++ "-d -s %s".
Definition PartprobeCmdTmpl : string := partprobe ++ "%s".
Definition CreatePartitionTableCmdTmpl : string := parted ++ "-s %s mklabel %s".
Definition CreatePartitionCmdTmpl : string :=
  parted ++ "-s %s mkpart --align optimal %s 0%% 100%%".
Definition DeletePartitionCmdTmpl : string := parted ++ "-s %s rm %s".
Definition SetPartitionUUIDCmdTmpl : string := sgdisk ++ "%s --partition-guid=%s:%s".
Definition GetPartitionUUIDCmdTmpl : string := sgdisk ++ "%s --info=%s".

(** [supportedTypes]: list of supported partition table types *)
Definition supportedTypes : list string := [PartitionGPT].

(** [Partition] is the basic implementation of the Partitioner interface,
    whose eight methods are the ones of section [Methods] below.  Its one
    field is the executor. *)
Record Partition (St : Type) : Type := { e : CmdExecutor St }.
Arguments e {St} _.

Definition NewPartition {St : Type} (e : CmdExecutor St) : Partition St :=
  {| e := e |}.

(** the label that [GetPartitionUUID] looks for *)
Definition partitionPresentation : string := "Partition unique GUID:".

Section Methods.
Context `{UnicodeTables} {St : Type}.

Definition IsPartitionExists (p : Partition St) (device partNum : string)
  : M St (bool * option error) :=
  let cmd := fmt.Sprintf PartprobeDeviceCmdTmpl [Str device] in
  '(stdout, _, err) <- RunCmd (e p) cmd ;;
  match err with
  | Some _ =>
      ret (false, Some (fmt.Errorf "unable to check partition %#v existence for %s"
                          [Str partNum; Str device]))
  | None =>
      let stdout := strings.TrimSpace stdout in
      let s := strings.Split stdout "partitions" in
      if (1 <? List.length s) && negb (nth 1 s "" =? "")%string
      then ret (true, None)
      else ret (false, None)
  end.

Definition CreatePartitionTable (p : Partition St) (device partTableType : string)
  : M St (option error) :=
  if negb (util.ContainsString supportedTypes partTableType)
  then ret (Some (fmt.Errorf
         "unable to create partition table for device %s unsupported partition table type: %#v"
         [Str device; Str partTableType]))
  else
    let cmd := fmt.Sprintf CreatePartitionTableCmdTmpl [Str device; Str partTableType] in
    '(_, _, err) <- RunCmd (e p) cmd ;;
    match err with
    | Some _ =>
        ret (Some (fmt.Errorf "unable to create partition table for device %s" [Str device]))
    | None => ret None
    end.

Definition GetPartitionTableType (p : Partition St) (device : string)
  : M St (string * option error) :=
  let cmd := fmt.Sprintf PartprobeDeviceCmdTmpl [Str device] in
  '(stdout, _, err) <- RunCmd (e p) cmd ;;
  match err with
  | Some _ =>
      ret ("", Some (fmt.Errorf "unable to get partition table for device %s" [Str device]))
  | None =>
      let s := strings.Split stdout " " in
      if List.length s <? 2
      then ret ("", Some (fmt.Errorf "unable to parse output '%s' for device %s"
                            [Str stdout; Str device]))
      else ret (nth 1 s "", None)
  end.

Definition CreatePartition (p : Partition St) (device partName : string)
  : M St (option error) :=
  let cmd := fmt.Sprintf CreatePartitionCmdTmpl [Str device; Str partName] in
  '(_, _, err) <- RunCmd (e p) cmd ;;
  match err with
  | Some err => ret (Some err)
  | None => ret None
  end.

Definition DeletePartition (p : Partition St) (device partNum : string)
  : M St (option error) :=
  let cmd := fmt.Sprintf DeletePartitionCmdTmpl [Str device; Str partNum] in
  '(_, stderr, err) <- RunCmd (e p) cmd ;;
  match err with
  | Some err =>
      ret (Some (fmt.Errorf "unable to delete partition %#v from device %s: %s, error: %v"
                   [Str partNum; Str device; Str stderr; Err err]))
  | None => ret None
  end.

Definition SetPartitionUUID (p : Partition St) (device partNum partUUID : string)
  : M St (option error) :=
  let cmd := fmt.Sprintf SetPartitionUUIDCmdTmpl [Str device; Str partNum; Str partUUID] in
  '(_, _, err) <- RunCmd (e p) cmd ;;
  match err with
  | Some err => ret (Some err)
  | None => ret None
  end.

(** The loop [for _, line := range strings.Split(stdout, "\n")] of
    [GetPartitionUUID]: [Some] is its [return] from inside the loop, [None]
    is the loop running to its end. *)
Fixpoint scanLines (lines : list string) : option string :=
  match lines with
  | [] => None
  | line :: lines' =>
      if strings.Contains line partitionPresentation
      then
        let res := strings.Split (strings.TrimSpace line) partitionPresentation in
        if 1 <? List.length res
        then Some (strings.ToLower (strings.TrimSpace (nth 1 res "")))
        else scanLines lines'
      else scanLines lines'
  end.

Definition GetPartitionUUID (p : Partition St) (device partNum : string)
  : M St (string * option error) :=
  let cmd := fmt.Sprintf GetPartitionUUIDCmdTmpl [Str device; Str partNum] in
  '(stdout, _, err) <- RunCmd (e p) cmd ;;
  match err with
  | Some err => ret ("", Some err)
  | None =>
      match scanLines (strings.Split stdout (String LF "")) with
      | Some uuid => ret (uuid, None)
      | None =>
          ret ("", Some (fmt.Errorf "unable to get partition GUID for device %s"
                           [Str device]))
      end
  end.

Definition SyncPartitionTable (p : Partition St) (device : string)
  : M St (option error) :=
  let cmd := fmt.Sprintf PartprobeCmdTmpl [Str device] in
  '(_, _, err) <- RunCmd (e p) cmd ;;
  match err with
  | Some err => ret (Some err)
  | None => ret None
  end.

End Methods.

(** ** Executors to run the methods against *)

(** A stub: every command gets the same answer, and nothing is recorded. *)
Definition stubExecutor (stdout stderr : string) (err : option error) : CmdExecutor unit :=
  {| RunCmd := fun _ st => ((stdout, stderr, err), st) |}.

(** A spy: it appends every command to a record of the calls and passes it
    on to the executor it wraps. *)
Definition spyExecutor {St : Type} (inner : CmdExecutor St) : CmdExecutor (list string * St) :=
  {| RunCmd := fun cmd st =>
       let (out, st') := RunCmd inner cmd (snd st) in
       (out, ((fst st ++ [cmd])%list, st')) |}.

(** Tables for input that stays within ASCII: [MapToLower] and [QuoteRunes]
    are not reached there, and the UTF-8 sequences of an ASCII string are
    its bytes. *)
Fixpoint singleBytes (s : string) : list string :=
  match s with
  | EmptyString => []
  | String c s' => String c "" :: singleBytes s'
  end.

Definition asciiTables : UnicodeTables :=
  {| MapToLower := fun s => s; QuoteRunes := fun s => s; explode := singleBytes |}.

(** The example of the output of [sgdisk /dev/sdy --info=1] that the source
    gives in [GetPartitionUUID]. *)
Definition sgdiskInfoExample : string :=
  "Partition GUID code: 0FC63DAF-8483-4772-8E79-3D69D8477DE4 (Linux filesystem)"
  ++ String LF "Partition unique GUID: 5209CFD8-3AB1-4720-BCEA-DFA80315EC92"
  ++ String LF "First sector: 2048 (at 1024.0 KiB)"
  ++ String LF "Last sector: 999423 (at 488.0 MiB)"
  ++ String LF "Partition size: 997376 sectors (487.0 MiB)"
  ++ String LF "Attribute flags: 0000000000000000"
  ++ String LF "Partition name: ''"
  ++ String LF "".

(** ** The wording of the spec, for comparison with the code *)

(** "a non-empty remainder follows the token": what follows the first
    occurrence of [token] in [s], if there is one *)
Definition remainderAfter (s token : string) : option string :=
  match strings.Index s token with
  | Some i => Some (strings.drop (i + String.length token) s)
  | None => None
  end.

(** what follows the last occurrence of [token] in [s], if there is one *)
Fixpoint remainderAfterLast (s token : string) : option string :=
  match s with
  | EmptyString => if strings.HasPrefix s token then Some s else None
  | String _ s' =>
      match remainderAfterLast s' token with
      | Some r => Some r
      | None =>
          if strings.HasPrefix s token
          then Some (strings.drop (String.length token) s)
          else None
      end
  end.

(** the text between the first occurrence of [token] in [s] and the next
    one, or the end of [s] when there is no next one *)
Definition segmentAfter (s token : string) : option string :=
  match remainderAfter s token with
  | Some rest =>
      match strings.Index rest token with
      | Some j => Some (strings.take j rest)
      | None => Some rest
      end
  | None => None
  end.

(** "whitespace-separated tokens": the maximal runs of bytes of [s] that are
    not white space, in order; [cur] is the run being read *)
Fixpoint fieldsFrom (cur s : string) : list string :=
  match s with
  | EmptyString => if (cur =? "")%string then [] else [cur]
  | String c s' =>
      if strings.asciiSpace c
      then (if (cur =? "")%string then fieldsFrom "" s' else cur :: fieldsFrom "" s')
      else fieldsFrom (cur ++ String c "") s'
  end.

Definition whitespaceTokens (s : string) : list string := fieldsFrom "" s.

(** ** Auxiliary notions for the proofs *)

(** The encoding of one white-space rune: what [TrimSpace] removes in one
    round at either end. *)
Inductive wsEnc : string -> Prop :=
| wsEnc1 (a : ascii) :
    strings.asciiSpace a = true -> wsEnc (String a "")
| wsEnc2 (a b : ascii) :
    strings.isSpace2 a b = true -> wsEnc (String a (String b ""))
| wsEnc3 (a b c : ascii) :
    strings.isSpace3 a b c = true -> wsEnc (String a (String b (String c ""))).

(** [t] has no border: no end of [t], other than [t] itself and the empty
    one, is also a beginning of [t].  Two instances of such a [t] in a text
    do not overlap. *)
Definition unbordered (t : string) : bool :=
  forallb (fun k => negb (strings.HasPrefix t (strings.drop k t)))
          (seq 1 (String.length t - 1)).

(** a printable ASCII byte other than the double quote and the backslash:
    [strconv.Quote] leaves it as it is *)
Definition plainByte (c : ascii) : bool :=
  ((32 <=? ord c) && (ord c <? 127)) && negb ((ord c =? 34) || (ord c =? 92)).

(** an ASCII byte that is not white space: both trims stop at it *)
Definition solidByte (c : ascii) : bool :=
  (ord c <? utf8.RuneSelf) && negb (strings.asciiSpace c).

(** [t] starts and ends with such a byte *)
Definition solidEnds (t : string) : bool :=
  match t, strings.rev t with
  | String p _, String q _ => solidByte p && solidByte q
  | _, _ => false
  end.

(** an upper-case ASCII letter *)
Definition isUpper (c : ascii) : bool := (65 <=? ord c) && (ord c <=? 90).

(** A stub whose state is the standard output that it gives next. *)
Definition echoExecutor : CmdExecutor string :=
  {| RunCmd := fun _ st => ((st, "", None), st) |}.

Definition backslash : ascii := "092"%char.

(** the carriage return *)
Definition CR : ascii := "013"%char.

(** The line of the GUID as a tool prints it that indents and pads its
    lines: the label after two spaces, the GUID after three, two spaces
    after the GUID. *)
Definition paddedGUIDLine : string :=
  "  Partition unique GUID:   5209CFD8-3AB1-4720-BCEA-DFA80315EC92  ".

(** A report with that line, its lines ended by carriage return and line
    feed. *)
Definition sgdiskInfoPadded : string :=
  "Partition GUID code: 0FC63DAF-8483-4772-8E79-3D69D8477DE4 (Linux filesystem)"
  ++ String CR (String LF paddedGUIDLine)
  ++ String CR (String LF "Partition name: ''").

(** * Lemmas on byte strings *)

Import strings.

Lemma sapp_nil_r (s : string) : s ++ "" = s.
Proof. induction s as [|c s IH]; simpl; [reflexivity | now rewrite IH]. Qed.

Lemma sapp_assoc (a b c : string) : (a ++ b) ++ c = a ++ (b ++ c).
Proof. induction a as [|x a IH]; simpl; [reflexivity | now rewrite IH]. Qed.

Lemma slength_app (a b : string) :
  String.length (a ++ b) = String.length a + String.length b.
Proof. induction a as [|x a IH]; simpl; [reflexivity | now rewrite IH]. Qed.

Lemma take_drop (n : nat) (s : string) : take n s ++ drop n s = s.
Proof.
  revert s; induction n as [|n IH]; intros [|c s]; simpl; try reflexivity.
  now rewrite IH.
Qed.

Lemma take_app_length (a b : string) : take (String.length a) (a ++ b) = a.
Proof. induction a as [|x a IH]; simpl; [now destruct b | now rewrite IH]. Qed.

Lemma drop_app_length (a b : string) : drop (String.length a) (a ++ b) = b.
Proof. induction a as [|x a IH]; simpl; [reflexivity | exact IH]. Qed.

Lemma drop_length_le (n : nat) (s : string) :
  String.length (drop n s) = String.length s - n.
Proof.
  revert s; induction n as [|n IH]; intros [|c s]; simpl; try reflexivity.
  apply IH.
Qed.

Lemma drop_drop (n m : nat) (s : string) : drop m (drop n s) = drop (n + m) s.
Proof.
  revert s; induction n as [|n IH]; intros s; simpl.
  - reflexivity.
  - destruct s as [|c s]; simpl.
    + now destruct m.
    + apply IH.
Qed.

Lemma HasPrefix_app (p r : string) : HasPrefix (p ++ r) p = true.
Proof.
  induction p as [|x p IH]; simpl.
  - now destruct r.
  - now rewrite Ascii.eqb_refl.
Qed.

Lemma HasPrefix_inv (s p : string) :
  HasPrefix s p = true -> s = p ++ drop (String.length p) s.
Proof.
  revert s; induction p as [|x p IH]; intros s Hp; simpl.
  - reflexivity.
  - destruct s as [|y s]; simpl in Hp; [discriminate|].
    apply andb_true_iff in Hp as [Hxy Hp].
    apply Ascii.eqb_eq in Hxy; subst y.
    simpl. f_equal. now apply IH.
Qed.

Lemma HasPrefix_length (s p : string) :
  HasPrefix s p = true -> String.length p <= String.length s.
Proof.
  intros Hp. rewrite (HasPrefix_inv _ _ Hp), slength_app. lia.
Qed.

Lemma Index_eq (s t : string) :
  Index s t =
  if HasPrefix s t then Some 0
  else match s with
       | EmptyString => None
       | String _ s' => option_map S (Index s' t)
       end.
Proof. destruct s; reflexivity. Qed.

(** [Index] finds an instance: the text splits there. *)
Lemma Index_Some_split (s t : string) (i : nat) :
  Index s t = Some i ->
  s = take i s ++ t ++ drop (i + String.length t) s
  /\ i + String.length t <= String.length s.
Proof.
  revert i; induction s as [|c s IH]; intros i; rewrite Index_eq.
  - destruct (HasPrefix "" t) eqn:Hp; [|discriminate].
    intros [= <-]. split.
    + exact (HasPrefix_inv _ _ Hp).
    + exact (HasPrefix_length _ _ Hp).
  - destruct (HasPrefix (String c s) t) eqn:Hp.
    + intros [= <-]. split.
      * exact (HasPrefix_inv _ _ Hp).
      * exact (HasPrefix_length _ _ Hp).
    + destruct (Index s t) as [j|] eqn:Hj; simpl; [|discriminate].
      intros [= <-]. destruct (IH j eq_refl) as [Hs Hl].
      split; simpl; [now rewrite <- Hs | lia].
Qed.

Lemma Index_app (a t b : string) : exists i, Index (a ++ t ++ b) t = Some i.
Proof.
  induction a as [|c a [i Hi]]; simpl append; rewrite Index_eq.
  - rewrite HasPrefix_app. now exists 0.
  - destruct (HasPrefix _ t); [now exists 0|].
    rewrite Hi. now exists (S i).
Qed.

(** [Contains] holds exactly of the strings that have [t] somewhere inside. *)
Lemma Contains_iff (s t : string) :
  Contains s t = true <-> exists a b, s = a ++ t ++ b.
Proof.
  unfold Contains. split.
  - destruct (Index s t) as [i|] eqn:Hi; [|discriminate].
    intros _. destruct (Index_Some_split _ _ _ Hi) as [Hs _].
    now exists (take i s), (drop (i + String.length t) s).
  - intros (a & b & ->). destruct (Index_app a t b) as [i ->]. reflexivity.
Qed.

(** An instance inside a part of a text is an instance in the text. *)
Lemma Contains_inside (a m b t : string) :
  Contains m t = true -> Contains (a ++ m ++ b) t = true.
Proof.
  rewrite !Contains_iff. intros (x & y & ->).
  exists (a ++ x), (y ++ b). now rewrite !sapp_assoc.
Qed.

Lemma Contains_false_inside (a m b t : string) :
  Contains (a ++ m ++ b) t = false -> Contains m t = false.
Proof.
  intros Hf. destruct (Contains m t) eqn:Hm; [|reflexivity].
  now rewrite (Contains_inside a m b t Hm) in Hf.
Qed.

(** ** [Count] and [Split] with a separator that is not empty *)

Lemma countLoop_fuel (t : string) (f f' : nat) (s : string) (n : nat) :
  t <> "" -> String.length s < f -> String.length s < f' ->
  countLoop f s t n = countLoop f' s t n.
Proof.
  intros Ht. revert f' s n; induction f as [|f IH]; intros f' s n Hf Hf'; [lia|].
  destruct f' as [|f']; [lia|]. simpl.
  destruct (Index s t) as [i|] eqn:Hi; [|reflexivity].
  destruct (Index_Some_split _ _ _ Hi) as [_ Hl].
  assert (0 < String.length t) by (destruct t; [congruence | simpl; lia]).
  apply IH; rewrite drop_length_le; lia.
Qed.

Lemma countLoop_acc (t : string) (f : nat) (s : string) (n : nat) :
  countLoop f s t n = n + countLoop f s t 0.
Proof.
  revert s n; induction f as [|f IH]; intros s n; simpl; [lia|].
  destruct (Index s t) as [i|]; [|lia].
  rewrite (IH _ (S n)), (IH _ 1). lia.
Qed.

Lemma countLoop_le (t : string) (f : nat) (s : string) :
  t <> "" -> countLoop f s t 0 <= String.length s.
Proof.
  intros Ht. revert s; induction f as [|f IH]; intros s; simpl; [lia|].
  destruct (Index s t) as [i|] eqn:Hi; [|lia].
  destruct (Index_Some_split _ _ _ Hi) as [_ Hl].
  assert (0 < String.length t) by (destruct t; [congruence | simpl; lia]).
  rewrite countLoop_acc.
  specialize (IH (drop (i + String.length t) s)).
  rewrite drop_length_le in IH. lia.
Qed.

Section SplitLemmas.
Context `{UnicodeTables}.

Lemma Count_None (s t : string) :
  t <> "" -> Index s t = None -> Count s t = 0.
Proof.
  intros Ht Hi. unfold Count.
  apply String.eqb_neq in Ht. rewrite Ht. simpl. now rewrite Hi.
Qed.

Lemma Count_Some (s t : string) (i : nat) :
  t <> "" -> Index s t = Some i ->
  Count s t = S (Count (drop (i + String.length t) s) t).
Proof.
  intros Ht Hi. unfold Count.
  pose proof Ht as Hb. apply String.eqb_neq in Hb. rewrite Hb.
  remember (S (String.length (drop (i + String.length t) s))) as f' eqn:Ef.
  cbn [countLoop]. rewrite Hi, countLoop_acc. cbn [Nat.add]. f_equal.
  destruct (Index_Some_split _ _ _ Hi) as [_ Hl].
  assert (0 < String.length t) by (destruct t; [congruence | simpl; lia]).
  subst f'. apply countLoop_fuel; trivial; rewrite drop_length_le; lia.
Qed.

Lemma Split_rounds (s sep : string) :
  sep <> "" -> Split s sep = genSplitLoop (Count s sep) s sep.
Proof.
  intros Hsep. unfold Split.
  pose proof Hsep as Hb. apply String.eqb_neq in Hb. rewrite Hb.
  assert (Hle : Count s sep <= String.length s).
  { unfold Count. rewrite Hb.
    destruct (Index s sep) as [i|] eqn:Hi.
    - cbn [countLoop]. rewrite Hi, countLoop_acc.
      destruct (Index_Some_split _ _ _ Hi) as [_ Hl].
      assert (0 < String.length sep) by (destruct sep; [congruence | simpl; lia]).
      pose proof (countLoop_le sep (String.length s)
                    (drop (i + String.length sep) s) Hsep) as Hc.
      rewrite drop_length_le in Hc. lia.
    - cbn [countLoop]. rewrite Hi. lia. }
  cbv zeta.
  destruct (Nat.ltb_spec (String.length s + 1) (Count s sep + 1)); [lia|].
  f_equal. lia.
Qed.

(** [Split] cuts at the first instance of the separator and goes on with
    what follows it. *)
Lemma Split_unfold (s sep : string) :
  sep <> "" ->
  Split s sep =
  match Index s sep with
  | None => [s]
  | Some m => take m s :: Split (drop (m + String.length sep) s) sep
  end.
Proof.
  intros Hsep. rewrite Split_rounds by assumption.
  destruct (Index s sep) as [m|] eqn:Hi.
  - rewrite (Count_Some _ _ _ Hsep Hi). cbn [genSplitLoop]. rewrite Hi.
    now rewrite Split_rounds.
  - rewrite (Count_None _ _ Hsep Hi). cbn [genSplitLoop]. reflexivity.
Qed.

End SplitLemmas.

(** ** White space and its encodings *)

Ltac no_ws_enc :=
  let w := fresh "w" in
  let r := fresh "r" in
  let Hw := fresh "Hw" in
  let E := fresh "E" in
  intros w r Hw E; destruct Hw; simpl in E; try discriminate E;
  inversion E; subst; congruence.

Lemma asciiSpace_inv (a : ascii) : asciiSpace a = true -> ord a < 128.
Proof.
  unfold asciiSpace. cbv zeta.
  rewrite !orb_true_iff, !Nat.eqb_eq. lia.
Qed.

Lemma isSpace2_inv (a b : ascii) :
  isSpace2 a b = true -> ord a = 194 /\ 128 <= ord b < 192.
Proof.
  unfold isSpace2.
  rewrite !andb_true_iff, !orb_true_iff, !Nat.eqb_eq. lia.
Qed.

Lemma isSpace3_inv (a b c : ascii) :
  isSpace3 a b c = true ->
  225 <= ord a <= 227 /\ 128 <= ord b < 192 /\ 128 <= ord c < 192.
Proof.
  unfold isSpace3. cbv zeta.
  rewrite !orb_true_iff, !andb_true_iff, !orb_true_iff, !andb_true_iff,
    !Nat.eqb_eq, !Nat.leb_le.
  lia.
Qed.

Lemma rev_app (a b : string) : rev (a ++ b) = rev b ++ rev a.
Proof.
  induction a as [|x a IH]; simpl.
  - now rewrite sapp_nil_r.
  - now rewrite IH, sapp_assoc.
Qed.

Lemma rev_involutive (s : string) : rev (rev s) = s.
Proof.
  induction s as [|x s IH]; simpl; [reflexivity|].
  now rewrite rev_app, IH.
Qed.

Lemma slength_rev (s : string) : String.length (rev s) = String.length s.
Proof.
  induction s as [|x s IH]; simpl; [reflexivity|].
  rewrite slength_app, IH. simpl. lia.
Qed.

Lemma wsEnc_length (w : string) : wsEnc w -> 0 < String.length w.
Proof. intros [a Ha|a b Hab|a b c Habc]; simpl; lia. Qed.

(** The left trim passes over an encoding of white space. *)
Lemma TrimLeftSpace_step (w s : string) :
  wsEnc w -> TrimLeftSpace (w ++ s) = TrimLeftSpace s.
Proof.
  intros [a Ha|a b Hab|a b c Habc]; simpl.
  - now rewrite Ha.
  - pose proof (isSpace2_inv _ _ Hab) as Hi.
    destruct (asciiSpace a) eqn:Ha.
    + apply asciiSpace_inv in Ha. lia.
    + now rewrite Hab.
  - pose proof (isSpace3_inv _ _ _ Habc) as Hi.
    destruct (asciiSpace a) eqn:Ha.
    + apply asciiSpace_inv in Ha. lia.
    + destruct (isSpace2 a b) eqn:Hab.
      * apply isSpace2_inv in Hab. lia.
      * now rewrite Habc.
Qed.

Lemma TrimLeftSpaceRev_step (w s : string) :
  wsEnc w -> TrimLeftSpaceRev (rev w ++ s) = TrimLeftSpaceRev s.
Proof.
  intros [a Ha|a b Hab|a b c Habc]; simpl.
  - now rewrite Ha.
  - pose proof (isSpace2_inv _ _ Hab) as Hi.
    destruct (asciiSpace b) eqn:Hb.
    + apply asciiSpace_inv in Hb. lia.
    + now rewrite Hab.
  - pose proof (isSpace3_inv _ _ _ Habc) as Hi.
    destruct (asciiSpace c) eqn:Hc.
    + apply asciiSpace_inv in Hc. lia.
    + destruct (isSpace2 b c) eqn:Hbc.
      * apply isSpace2_inv in Hbc. lia.
      * now rewrite Habc.
Qed.

(** Where the left trim stops there is no encoding of white space in front;
    where it does not stop there is one. *)
Lemma TrimLeftSpace_cases (s : string) :
  (TrimLeftSpace s = s /\ forall w r, wsEnc w -> s <> w ++ r)
  \/ (exists w r, wsEnc w /\ s = w ++ r).
Proof.
  destruct s as [|a s1].
  { left. split; [reflexivity|]. intros w r Hw E.
    apply wsEnc_length in Hw. destruct w; simpl in *; [lia | discriminate]. }
  destruct (asciiSpace a) eqn:Ha.
  { right. exists (String a ""), s1. split; [now constructor | reflexivity]. }
  destruct s1 as [|b s2].
  { left. split; [simpl; now rewrite Ha|].
    no_ws_enc. }
  destruct (isSpace2 a b) eqn:Hab.
  { right. exists (String a (String b "")), s2. split; [now constructor | reflexivity]. }
  destruct s2 as [|c s3].
  { left. split; [simpl; now rewrite Ha, Hab|].
    no_ws_enc. }
  destruct (isSpace3 a b c) eqn:Habc.
  { right. exists (String a (String b (String c ""))), s3.
    split; [now constructor | reflexivity]. }
  left. split; [simpl; now rewrite Ha, Hab, Habc|].
  no_ws_enc.
Qed.

Lemma TrimLeftSpaceRev_cases (s : string) :
  (TrimLeftSpaceRev s = s /\ forall w r, wsEnc w -> s <> rev w ++ r)
  \/ (exists w r, wsEnc w /\ s = rev w ++ r).
Proof.
  destruct s as [|a s1].
  { left. split; [reflexivity|]. intros w r Hw E.
    apply wsEnc_length in Hw. rewrite <- slength_rev in Hw.
    destruct (rev w); simpl in *; [lia | discriminate]. }
  destruct (asciiSpace a) eqn:Ha.
  { right. exists (String a ""), s1. split; [now constructor | reflexivity]. }
  destruct s1 as [|b s2].
  { left. split; [simpl; now rewrite Ha|].
    no_ws_enc. }
  destruct (isSpace2 b a) eqn:Hab.
  { right. exists (String b (String a "")), s2. split; [now constructor | reflexivity]. }
  destruct s2 as [|c s3].
  { left. split; [simpl; now rewrite Ha, Hab|].
    no_ws_enc. }
  destruct (isSpace3 c b a) eqn:Habc.
  { right. exists (String c (String b (String a ""))), s3.
    split; [now constructor | reflexivity]. }
  left. split; [simpl; now rewrite Ha, Hab, Habc|].
  no_ws_enc.
Qed.

Lemma string_length_ind (P : string -> Prop) :
  (forall s, (forall r, String.length r < String.length s -> P r) -> P s) ->
  forall s, P s.
Proof.
  intros step s.
  assert (H : forall n r, String.length r < n -> P r).
  { induction n as [|n IH]; intros r Hr; [lia|].
    apply step. intros r' Hr'. apply IH. lia. }
  apply (H (S (String.length s))). lia.
Qed.

Lemma TrimRightSpace_step (w s : string) :
  wsEnc w -> TrimRightSpace (s ++ w) = TrimRightSpace s.
Proof.
  intros Hw. unfold TrimRightSpace.
  now rewrite rev_app, TrimLeftSpaceRev_step.
Qed.

Lemma TrimRightSpace_cases (s : string) :
  (TrimRightSpace s = s /\ forall w r, wsEnc w -> s <> r ++ w)
  \/ (exists w r, wsEnc w /\ s = r ++ w).
Proof.
  unfold TrimRightSpace.
  destruct (TrimLeftSpaceRev_cases (rev s)) as [[Hs Hno]|(w & r & Hw & E)].
  - left. split.
    + now rewrite Hs, rev_involutive.
    + intros w r Hw E. apply (Hno w (rev r) Hw).
      now rewrite E, rev_app.
  - right. exists w, (rev r). split; [assumption|].
    rewrite <- (rev_involutive s), E, rev_app. now rewrite rev_involutive.
Qed.

(** What the left trim removes is a beginning of the text, what the right
    trim removes is an end of it. *)
Lemma TrimLeftSpace_suffix (s : string) : exists w, s = w ++ TrimLeftSpace s.
Proof.
  induction s as [s IH] using string_length_ind.
  destruct (TrimLeftSpace_cases s) as [[Hs _]|(w & r & Hw & ->)].
  - exists "". now rewrite Hs.
  - rewrite TrimLeftSpace_step by assumption.
    destruct (IH r) as [w' Hr].
    { rewrite slength_app. apply wsEnc_length in Hw. lia. }
    exists (w ++ w'). now rewrite sapp_assoc, <- Hr.
Qed.

Lemma TrimRightSpace_prefix (s : string) : exists w, s = TrimRightSpace s ++ w.
Proof.
  induction s as [s IH] using string_length_ind.
  destruct (TrimRightSpace_cases s) as [[Hs _]|(w & r & Hw & ->)].
  - exists "". now rewrite Hs, sapp_nil_r.
  - rewrite TrimRightSpace_step by assumption.
    destruct (IH r) as [w' Hr].
    { rewrite slength_app. apply wsEnc_length in Hw. lia. }
    exists (w' ++ w). now rewrite <- sapp_assoc, <- Hr.
Qed.

Lemma TrimSpace_inside (s : string) : exists a b, s = a ++ TrimSpace s ++ b.
Proof.
  unfold TrimSpace.
  destruct (TrimLeftSpace_suffix s) as [a Ha].
  destruct (TrimRightSpace_prefix (TrimLeftSpace s)) as [b Hb].
  exists a, b. now rewrite <- Hb.
Qed.

Lemma TrimRightSpace_idem (s : string) :
  TrimRightSpace (TrimRightSpace s) = TrimRightSpace s.
Proof.
  induction s as [s IH] using string_length_ind.
  destruct (TrimRightSpace_cases s) as [[Hs _]|(w & r & Hw & ->)].
  - now rewrite Hs.
  - rewrite TrimRightSpace_step by assumption. apply IH.
    rewrite slength_app. apply wsEnc_length in Hw. lia.
Qed.

(** An encoding of white space starts with an ASCII space or a lead byte
    and goes on with continuation bytes. *)
Lemma wsEnc_head (a : ascii) (r : string) :
  wsEnc (String a r) -> asciiSpace a = true \/ 194 <= ord a.
Proof.
  intros Hw. inversion Hw as [x Hx|x y Hxy|x y z Hxyz]; subst.
  - now left.
  - apply isSpace2_inv in Hxy. lia.
  - apply isSpace3_inv in Hxyz. lia.
Qed.

(** An encoding that starts in a text with no encoding in front, and ends
    beyond it, has a continuation byte where the text ends. *)
Lemma wsEnc_straddle (l y w r : string) :
  (forall w r, wsEnc w -> l <> w ++ r) -> l <> "" -> wsEnc w ->
  l ++ y = w ++ r ->
  exists c y', y = String c y' /\ 128 <= ord c < 192.
Proof.
  intros Hno Hl Hw E.
  destruct l as [|a [|b [|c l']]]; [congruence | | |];
    destruct Hw as [x Hx|x u Hxu|x u v Hxuv]; simpl in E;
    inversion E; subst;
    try (exfalso; eapply Hno; [constructor; eassumption | simpl; reflexivity]).
  - apply isSpace2_inv in Hxu. eexists _, _. split; [reflexivity | lia].
  - apply isSpace3_inv in Hxuv. eexists _, _. split; [reflexivity | lia].
  - apply isSpace3_inv in Hxuv. eexists _, _. split; [reflexivity | lia].
Qed.

Lemma wsEncRev_straddle (l y w r : string) :
  (forall w r, wsEnc w -> l <> rev w ++ r) -> l <> "" -> wsEnc w ->
  l ++ y = rev w ++ r ->
  exists c y', y = String c y' /\ 128 <= ord c.
Proof.
  intros Hno Hl Hw E.
  destruct l as [|a [|b [|c l']]]; [congruence | | |];
    destruct Hw as [x Hx|x u Hxu|x u v Hxuv]; simpl in E;
    inversion E; subst;
    try (exfalso; eapply Hno; [constructor; eassumption | simpl; reflexivity]).
  - apply isSpace2_inv in Hxu. eexists _, _. split; [reflexivity | lia].
  - apply isSpace3_inv in Hxuv. eexists _, _. split; [reflexivity | lia].
  - apply isSpace3_inv in Hxuv. eexists _, _. split; [reflexivity | lia].
Qed.

(** The left trim stops in front of an ASCII byte that is not white space,
    whatever comes before it. *)
Lemma TrimLeftSpace_app_stop (l : string) (p : ascii) (x : string) :
  ord p < 128 -> asciiSpace p = false ->
  TrimLeftSpace (l ++ String p x) = TrimLeftSpace l ++ String p x.
Proof.
  intros Hp Hns.
  induction l as [l IH] using string_length_ind.
  destruct (TrimLeftSpace_cases l) as [[Hl Hno]|(w & r & Hw & ->)].
  - rewrite Hl.
    destruct (TrimLeftSpace_cases (l ++ String p x)) as [[Hs _]|(w & r & Hw & E)];
      [assumption|].
    exfalso. destruct l as [|a l'].
    + simpl in E. destruct w as [|a' w']; [now apply wsEnc_length in Hw|].
      simpl in E. injection E as <- _.
      destruct (wsEnc_head _ _ Hw); [congruence | lia].
    + destruct (wsEnc_straddle _ _ _ _ Hno ltac:(discriminate) Hw E)
        as (c & y' & [= <- _] & Hc).
      lia.
  - rewrite sapp_assoc, !(TrimLeftSpace_step w) by assumption.
    apply IH. rewrite slength_app. apply wsEnc_length in Hw. lia.
Qed.

Lemma TrimLeftSpaceRev_app_stop (l : string) (p : ascii) (x : string) :
  ord p < 128 -> asciiSpace p = false ->
  TrimLeftSpaceRev (l ++ String p x) = TrimLeftSpaceRev l ++ String p x.
Proof.
  intros Hp Hns.
  induction l as [l IH] using string_length_ind.
  destruct (TrimLeftSpaceRev_cases l) as [[Hl Hno]|(w & r & Hw & ->)].
  - rewrite Hl.
    destruct (TrimLeftSpaceRev_cases (l ++ String p x)) as [[Hs _]|(w & r & Hw & E)];
      [assumption|].
    exfalso. destruct l as [|a l'].
    + simpl in E. destruct Hw as [u Hu|u v Huv|u v z Huvz]; simpl in E;
        injection E as <-.
      * congruence.
      * apply isSpace2_inv in Huv. lia.
      * apply isSpace3_inv in Huvz. lia.
    + destruct (wsEncRev_straddle _ _ _ _ Hno ltac:(discriminate) Hw E)
        as (c & y' & [= <- _] & Hc).
      lia.
  - rewrite sapp_assoc, !(TrimLeftSpaceRev_step w) by assumption.
    apply IH. rewrite slength_app, slength_rev. apply wsEnc_length in Hw. lia.
Qed.

(** The right trim stops behind such a byte, whatever comes after it. *)
Lemma TrimRightSpace_app_stop (x : string) (p : ascii) (r : string) :
  ord p < 128 -> asciiSpace p = false ->
  TrimRightSpace (x ++ String p r) = x ++ String p (TrimRightSpace r).
Proof.
  intros Hp Hns. unfold TrimRightSpace.
  replace (x ++ String p r) with ((x ++ String p "") ++ r)
    by now rewrite sapp_assoc.
  rewrite rev_app, rev_app. simpl rev at 2. simpl append at 2.
  rewrite TrimLeftSpaceRev_app_stop by assumption.
  rewrite rev_app. simpl rev at 1. rewrite rev_involutive.
  now rewrite sapp_assoc.
Qed.

(** White space at the end of a text does not change what the left trim
    followed by the right trim leaves. *)
Lemma TrimSpace_app_ws (s w : string) :
  wsEnc w -> TrimSpace (s ++ w) = TrimSpace s.
Proof.
  intros Hw. unfold TrimSpace.
  induction s as [s IH] using string_length_ind.
  destruct (TrimLeftSpace_cases s) as [[Hs Hno]|(w' & r & Hw' & ->)].
  - destruct s as [|a s'].
    + simpl append. rewrite <- (sapp_nil_r w) at 1.
      now rewrite TrimLeftSpace_step.
    + destruct (TrimLeftSpace_cases (String a s' ++ w)) as [[Hsw _]|(w2 & r & Hw2 & E)].
      * rewrite Hsw, Hs. now apply TrimRightSpace_step.
      * exfalso.
        destruct (wsEnc_straddle _ _ _ _ Hno ltac:(discriminate) Hw2 E)
          as (c & y' & -> & Hc).
        destruct (wsEnc_head _ _ Hw) as [Ha|Ha]; [apply asciiSpace_inv in Ha|]; lia.
  - rewrite sapp_assoc, !(TrimLeftSpace_step w') by assumption.
    apply IH. rewrite slength_app. apply wsEnc_length in Hw'. lia.
Qed.

(** Trimming the right end first changes nothing. *)
Lemma TrimSpace_TrimRightSpace (s : string) :
  TrimSpace (TrimRightSpace s) = TrimSpace s.
Proof.
  induction s as [s IH] using string_length_ind.
  destruct (TrimRightSpace_cases s) as [[Hs _]|(w & r & Hw & ->)].
  - now rewrite Hs.
  - rewrite TrimRightSpace_step, TrimSpace_app_ws by assumption.
    apply IH. rewrite slength_app. apply wsEnc_length in Hw. lia.
Qed.

(** ** Two instances of a text without border do not overlap *)

Lemma HasPrefix_app_split (a b t : string) :
  HasPrefix (a ++ b) t = true ->
  (String.length t <= String.length a /\ HasPrefix a t = true)
  \/ (String.length a < String.length t
      /\ HasPrefix b (drop (String.length a) t) = true).
Proof.
  revert t; induction a as [|x a IH]; intros t Ht.
  - destruct t as [|y t]; [left; split; [simpl; lia | reflexivity]|].
    right. split; [simpl; lia | exact Ht].
  - destruct t as [|y t]; [left; split; [simpl; lia | reflexivity]|].
    simpl in Ht. apply andb_true_iff in Ht as [Hxy Ht].
    destruct (IH _ Ht) as [[Hl Hp]|[Hl Hp]].
    + left. split; [simpl; lia | simpl; now rewrite Hxy, Hp].
    + right. split; [simpl; lia | exact Hp].
Qed.

Lemma unbordered_no_overlap (t : string) (k : nat) :
  unbordered t = true -> 1 <= k < String.length t ->
  HasPrefix t (drop k t) = false.
Proof.
  unfold unbordered. intros Hu Hk.
  rewrite forallb_forall in Hu.
  specialize (Hu k). rewrite in_seq in Hu.
  apply negb_true_iff, Hu. lia.
Qed.

Lemma Contains_tail (c : ascii) (s t : string) :
  Contains (String c s) t = false -> Contains s t = false.
Proof.
  unfold Contains. rewrite (Index_eq (String c s)).
  destruct (HasPrefix (String c s) t); [discriminate|].
  now destruct (Index s t).
Qed.

Lemma HasPrefix_Contains (s t : string) :
  HasPrefix s t = true -> Contains s t = true.
Proof. intros Hp. unfold Contains. now rewrite Index_eq, Hp. Qed.

(** In front of the first instance of [t] there is the text that does not
    hold [t]. *)
Lemma Index_after (pre t r : string) :
  unbordered t = true -> Contains pre t = false ->
  Index (pre ++ t ++ r) t = Some (String.length pre).
Proof.
  intros Hu. induction pre as [|c pre IH]; intros Hc.
  - simpl append. now rewrite Index_eq, HasPrefix_app.
  - change (String c pre ++ t ++ r) with (String c (pre ++ t ++ r)).
    rewrite Index_eq.
    destruct (HasPrefix (String c (pre ++ t ++ r)) t) eqn:Hp.
    + exfalso.
      change (String c (pre ++ t ++ r)) with (String c pre ++ t ++ r) in Hp.
      destruct (HasPrefix_app_split _ _ _ Hp) as [[_ Hp']|[Hl Hp']].
      * apply HasPrefix_Contains in Hp'. congruence.
      * destruct (HasPrefix_app_split _ _ _ Hp') as [[_ Hq]|[Hq _]].
        -- rewrite unbordered_no_overlap in Hq; [discriminate | assumption|].
           simpl in *. lia.
        -- rewrite drop_length_le in Hq. lia.
    + rewrite IH by (eapply Contains_tail; eassumption).
      reflexivity.
Qed.

Lemma Index_None_Contains (s t : string) :
  Contains s t = false -> Index s t = None.
Proof. unfold Contains. now destruct (Index s t). Qed.

(** ** [strconv.Quote] on plain text *)

Lemma escapeBytes_plain (s : string) :
  allBytes plainByte s = true -> strconv.escapeBytes s = s.
Proof.
  induction s as [|c s IH]; simpl; [reflexivity|].
  intros Hs. apply andb_true_iff in Hs as [Hc Hs].
  rewrite (IH Hs). unfold strconv.escapeByte, plainByte in *. cbv zeta.
  apply andb_true_iff in Hc as [Hc Hq].
  apply negb_true_iff in Hq. rewrite Hq, Hc. reflexivity.
Qed.

Lemma plain_isASCII (s : string) :
  allBytes plainByte s = true -> isASCII s = true.
Proof.
  unfold isASCII. induction s as [|c s IH]; simpl; [reflexivity|].
  intros Hs. apply andb_true_iff in Hs as [Hc Hs].
  rewrite (IH Hs), andb_true_r.
  unfold plainByte in Hc.
  rewrite !andb_true_iff, Nat.leb_le, Nat.ltb_lt in Hc.
  apply Nat.ltb_lt. unfold utf8.RuneSelf. lia.
Qed.

Section FormatLemmas.
Context `{UnicodeTables}.

Lemma Quote_plain (s : string) :
  allBytes plainByte s = true ->
  strconv.Quote s = String dquote (s ++ String dquote "").
Proof.
  intros Hs. unfold strconv.Quote.
  now rewrite (plain_isASCII _ Hs), (escapeBytes_plain _ Hs).
Qed.

(** *** The commands and messages of the package, formatted *)

Lemma Sprintf_PartprobeDeviceCmdTmpl (device : string) :
  fmt.Sprintf PartprobeDeviceCmdTmpl [Str device] = "partprobe -d -s " ++ device.
Proof. cbn. now rewrite sapp_nil_r. Qed.

Lemma Sprintf_PartprobeCmdTmpl (device : string) :
  fmt.Sprintf PartprobeCmdTmpl [Str device] = "partprobe " ++ device.
Proof. cbn. now rewrite sapp_nil_r. Qed.

Lemma Sprintf_CreatePartitionTableCmdTmpl (device partTableType : string) :
  fmt.Sprintf CreatePartitionTableCmdTmpl [Str device; Str partTableType]
  = "parted -s " ++ device ++ " mklabel " ++ partTableType.
Proof. cbn. now rewrite sapp_nil_r. Qed.

Lemma Sprintf_CreatePartitionCmdTmpl (device partName : string) :
  fmt.Sprintf CreatePartitionCmdTmpl [Str device; Str partName]
  = "parted -s " ++ device ++ " mkpart --align optimal " ++ partName ++ " 0% 100%".
Proof. reflexivity. Qed.

Lemma Sprintf_DeletePartitionCmdTmpl (device partNum : string) :
  fmt.Sprintf DeletePartitionCmdTmpl [Str device; Str partNum]
  = "parted -s " ++ device ++ " rm " ++ partNum.
Proof. cbn. now rewrite sapp_nil_r. Qed.

Lemma Sprintf_SetPartitionUUIDCmdTmpl (device partNum partUUID : string) :
  fmt.Sprintf SetPartitionUUIDCmdTmpl [Str device; Str partNum; Str partUUID]
  = "sgdisk " ++ device ++ " --partition-guid=" ++ partNum ++ ":" ++ partUUID.
Proof. cbn. now rewrite sapp_nil_r. Qed.

Lemma Sprintf_GetPartitionUUIDCmdTmpl (device partNum : string) :
  fmt.Sprintf GetPartitionUUIDCmdTmpl [Str device; Str partNum]
  = "sgdisk " ++ device ++ " --info=" ++ partNum.
Proof. cbn. now rewrite sapp_nil_r. Qed.

Lemma Errorf_check_existence (partNum device : string) :
  fmt.Errorf "unable to check partition %#v existence for %s" [Str partNum; Str device]
  = errors.New ("unable to check partition " ++ strconv.Quote partNum
                ++ " existence for " ++ device).
Proof. unfold fmt.Errorf. cbn. now rewrite sapp_nil_r. Qed.

Lemma Errorf_unsupported_type (device partTableType : string) :
  fmt.Errorf
    "unable to create partition table for device %s unsupported partition table type: %#v"
    [Str device; Str partTableType]
  = errors.New ("unable to create partition table for device " ++ device
                ++ " unsupported partition table type: " ++ strconv.Quote partTableType).
Proof. unfold fmt.Errorf. cbn. now rewrite sapp_nil_r. Qed.

Lemma Errorf_create_table (device : string) :
  fmt.Errorf "unable to create partition table for device %s" [Str device]
  = errors.New ("unable to create partition table for device " ++ device).
Proof. unfold fmt.Errorf. cbn. now rewrite sapp_nil_r. Qed.

Lemma Errorf_get_table (device : string) :
  fmt.Errorf "unable to get partition table for device %s" [Str device]
  = errors.New ("unable to get partition table for device " ++ device).
Proof. unfold fmt.Errorf. cbn. now rewrite sapp_nil_r. Qed.

Lemma Errorf_parse_output (stdout device : string) :
  fmt.Errorf "unable to parse output '%s' for device %s" [Str stdout; Str device]
  = errors.New ("unable to parse output '" ++ stdout ++ "' for device " ++ device).
Proof. unfold fmt.Errorf. cbn. now rewrite sapp_nil_r. Qed.

Lemma Errorf_delete (partNum device stderr : string) (err : error) :
  fmt.Errorf "unable to delete partition %#v from device %s: %s, error: %v"
    [Str partNum; Str device; Str stderr; Err err]
  = errors.New ("unable to delete partition " ++ strconv.Quote partNum
                ++ " from device " ++ device ++ ": " ++ stderr
                ++ ", error: " ++ Error err).
Proof. unfold fmt.Errorf. cbn. now rewrite sapp_nil_r. Qed.

Lemma Errorf_get_GUID (device : string) :
  fmt.Errorf "unable to get partition GUID for device %s" [Str device]
  = errors.New ("unable to get partition GUID for device " ++ device).
Proof. unfold fmt.Errorf. cbn. now rewrite sapp_nil_r. Qed.

End FormatLemmas.

(** * The methods of [Partition] *)

Section SplitSecond.
Context `{UnicodeTables}.

(** The second element of a split is the text between the first two
    instances of the separator. *)
Lemma Split_second (s sep : string) :
  sep <> "" ->
  match segmentAfter s sep with
  | Some seg => 1 < List.length (Split s sep) /\ nth 1 (Split s sep) "" = seg
  | None => Split s sep = [s]
  end.
Proof.
  intros Hsep. unfold segmentAfter, remainderAfter.
  rewrite Split_unfold by assumption.
  destruct (Index s sep) as [i|]; [|reflexivity].
  rewrite Split_unfold by assumption.
  destruct (Index (drop (i + String.length sep) s) sep) as [j|];
    simpl; split; (lia || reflexivity).
Qed.

Lemma segmentAfter_None (s sep : string) :
  segmentAfter s sep = None <-> Contains s sep = false.
Proof.
  unfold segmentAfter, remainderAfter, Contains.
  destruct (Index s sep) as [i|].
  - destruct (Index _ sep); split; discriminate.
  - split; reflexivity.
Qed.

End SplitSecond.

Section MethodLemmas.
Context `{UnicodeTables} {St : Type}.
Variable p : Partition St.

(** The answer of [IsPartitionExists] to the output of a probe: what the
    method computes from [stdout] when the executor reports no error. *)
Lemma IsPartitionExists_ok (device partNum stdout stderr : string) (st st' : St) :
  RunCmd (e p) ("partprobe -d -s " ++ device) st = ((stdout, stderr, None), st') ->
  IsPartitionExists p device partNum st =
  ((match segmentAfter (TrimSpace stdout) "partitions" with
    | Some seg => negb (seg =? "")%string
    | None => false
    end, None), st').
Proof.
  intros Hrun. unfold IsPartitionExists, bind, ret.
  rewrite Sprintf_PartprobeDeviceCmdTmpl, Hrun.
  pose proof (Split_second (TrimSpace stdout) "partitions" ltac:(discriminate)) as Hs.
  destruct (segmentAfter (TrimSpace stdout) "partitions") as [seg|].
  - destruct Hs as [Hl ->]. apply Nat.ltb_lt in Hl. rewrite Hl. simpl.
    now destruct (seg =? "")%string.
  - now rewrite Hs.
Qed.

Lemma IsPartitionExists_fail (device partNum stdout stderr : string) (err : error)
  (st st' : St) :
  RunCmd (e p) ("partprobe -d -s " ++ device) st = ((stdout, stderr, Some err), st') ->
  IsPartitionExists p device partNum st =
  ((false, Some (errors.New ("unable to check partition " ++ strconv.Quote partNum
                             ++ " existence for " ++ device))), st').
Proof.
  intros Hrun. unfold IsPartitionExists, bind, ret.
  now rewrite Sprintf_PartprobeDeviceCmdTmpl, Hrun, Errorf_check_existence.
Qed.

End MethodLemmas.

(** X11: what [IsPartitionExists] computes.  With a succeeding executor it
    answers true exactly when the trimmed output of the probe holds the
    token "partitions" and the text between its first instance and the next
    one (or the end of the output) is not empty.  It answers true for
    "/dev/sdy: gpt partitions 1 2" and false for "/dev/sdy: gpt partitions "
    and for "/dev/sdy: gpt partitions". *)
Theorem IsPartitionExists_segment `{UnicodeTables} {St : Type} (p : Partition St)
  (device partNum stdout stderr : string) (st st' : St)
  (Hrun : RunCmd (e p) ("partprobe -d -s " ++ device) st = ((stdout, stderr, None), st')) :
  (exists b : bool,
     IsPartitionExists p device partNum st = ((b, None), st')
     /\ (b = true <->
         exists seg, segmentAfter (TrimSpace stdout) "partitions" = Some seg /\ seg <> ""))
  /\ fst (IsPartitionExists
            (NewPartition (stubExecutor "/dev/sdy: gpt partitions 1 2" stderr None))
            device partNum tt) = (true, None)
  /\ fst (IsPartitionExists
            (NewPartition (stubExecutor "/dev/sdy: gpt partitions " stderr None))
            device partNum tt) = (false, None)
  /\ fst (IsPartitionExists
            (NewPartition (stubExecutor "/dev/sdy: gpt partitions" stderr None))
            device partNum tt) = (false, None).
Proof.
  split.
  - eexists. split; [exact (IsPartitionExists_ok p _ _ _ _ _ _ Hrun)|].
    destruct (segmentAfter (TrimSpace stdout) "partitions") as [seg|].
    + destruct (String.eqb_spec seg ""); simpl; split.
      * discriminate.
      * intros (seg' & [= <-] & Hne). contradiction.
      * intros _. now exists seg.
      * reflexivity.
    + split; [discriminate|]. intros (seg & [=] & _).
  - repeat split;
      (erewrite IsPartitionExists_ok by (simpl; reflexivity)); reflexivity.
Qed.

(** C3, where the code leaves the claim.  The path of the device may hold
    the token: for the output "/dev/mapper/partitions: gpt partitions" of a
    disk without partitions nothing follows the token that announces the
    list, and [IsPartitionExists] answers true, since the second element of
    its split is the text ": gpt " between the two instances.  The three
    examples of the claim hold.  For "/dev/sdy: gpt partitionspartitions 1"
    a remainder that is not empty follows the first instance of the token
    and the last one, and [IsPartitionExists] answers false, since the text
    between the two instances is empty. *)
Theorem IsPartitionExists_token_twice `{UnicodeTables} (device partNum stderr : string) :
  fst (IsPartitionExists
         (NewPartition (stubExecutor "/dev/mapper/partitions: gpt partitions" stderr None))
         device partNum tt) = (true, None)
  /\ Split (TrimSpace "/dev/mapper/partitions: gpt partitions") "partitions"
     = ["/dev/mapper/"; ": gpt "; ""]
  /\ remainderAfterLast (TrimSpace "/dev/mapper/partitions: gpt partitions") "partitions"
     = Some ""
  /\ fst (IsPartitionExists
            (NewPartition (stubExecutor "/dev/sdy: gpt partitions 1 2" stderr None))
            device partNum tt) = (true, None)
  /\ fst (IsPartitionExists
            (NewPartition (stubExecutor "/dev/sdy: gpt partitions " stderr None))
            device partNum tt) = (false, None)
  /\ fst (IsPartitionExists
            (NewPartition (stubExecutor "/dev/sdy: gpt partitions" stderr None))
            device partNum tt) = (false, None)
  /\ remainderAfter (TrimSpace "/dev/sdy: gpt partitionspartitions 1") "partitions"
     = Some "partitions 1"
  /\ remainderAfterLast (TrimSpace "/dev/sdy: gpt partitionspartitions 1") "partitions"
     = Some " 1"
  /\ fst (IsPartitionExists
            (NewPartition (stubExecutor "/dev/sdy: gpt partitionspartitions 1" stderr None))
            device partNum tt) = (false, None).
Proof.
  split; [|split; [reflexivity|split; [reflexivity|]]];
    repeat split;
    (erewrite IsPartitionExists_ok by (simpl; reflexivity)); reflexivity.
Qed.

(** C10: when the output of the probe does not hold "partitions" at all,
    the split of the trimmed output has one element and, the executor
    reporting no error, [IsPartitionExists] answers false with a nil error. *)
Theorem IsPartitionExists_without_token `{UnicodeTables} {St : Type} (p : Partition St)
  (device partNum stdout stderr : string) (st st' : St)
  (Hrun : RunCmd (e p) ("partprobe -d -s " ++ device) st = ((stdout, stderr, None), st'))
  (Hno : Contains stdout "partitions" = false) :
  IsPartitionExists p device partNum st = ((false, None), st')
  /\ Split (TrimSpace stdout) "partitions" = [TrimSpace stdout].
Proof.
  assert (Hseg : segmentAfter (TrimSpace stdout) "partitions" = None).
  { apply segmentAfter_None.
    destruct (TrimSpace_inside stdout) as (a & b & Hab).
    rewrite Hab in Hno. exact (Contains_false_inside _ _ _ _ Hno). }
  split.
  - rewrite (IsPartitionExists_ok p _ _ _ _ _ _ Hrun). now rewrite Hseg.
  - pose proof (Split_second (TrimSpace stdout) "partitions" ltac:(discriminate)) as Hs.
    now rewrite Hseg in Hs.
Qed.

(** C9: the answer of [IsPartitionExists], whether it reports an error, and
    the state it leaves are the same for any two partition numbers. *)
Theorem IsPartitionExists_ignores_partNum `{UnicodeTables} {St : Type} (p : Partition St)
  (device partNum1 partNum2 : string) (st : St) :
  fst (fst (IsPartitionExists p device partNum1 st))
  = fst (fst (IsPartitionExists p device partNum2 st))
  /\ (snd (fst (IsPartitionExists p device partNum1 st)) = None
      <-> snd (fst (IsPartitionExists p device partNum2 st)) = None)
  /\ snd (IsPartitionExists p device partNum1 st)
     = snd (IsPartitionExists p device partNum2 st).
Proof.
  destruct (RunCmd (e p) ("partprobe -d -s " ++ device) st)
    as [[[stdout stderr] [err|]] st'] eqn:Hrun.
  - rewrite !(IsPartitionExists_fail p _ _ _ _ _ _ _ Hrun). simpl.
    repeat split; discriminate.
  - rewrite !(IsPartitionExists_ok p _ _ _ _ _ _ Hrun). simpl.
    repeat split; reflexivity.
Qed.

Section MoreMethodLemmas.
Context `{UnicodeTables} {St : Type}.
Variable p : Partition St.

Lemma ContainsString_supportedTypes (partTableType : string) :
  util.ContainsString supportedTypes partTableType = ("gpt" =? partTableType)%string.
Proof. simpl. apply orb_false_r. Qed.

Lemma CreatePartitionTable_unsupported (device partTableType : string) (st : St) :
  partTableType <> "gpt" ->
  CreatePartitionTable p device partTableType st =
  (Some (errors.New ("unable to create partition table for device " ++ device
                     ++ " unsupported partition table type: "
                     ++ strconv.Quote partTableType)), st).
Proof.
  intros Hty. unfold CreatePartitionTable, ret.
  rewrite ContainsString_supportedTypes.
  destruct (String.eqb_spec "gpt" partTableType); [congruence|].
  simpl. now rewrite Errorf_unsupported_type.
Qed.

Lemma CreatePartitionTable_gpt (device stdout stderr : string) (err : option error)
  (st st' : St) :
  RunCmd (e p) ("parted -s " ++ device ++ " mklabel gpt") st = ((stdout, stderr, err), st') ->
  CreatePartitionTable p device "gpt" st =
  (match err with
   | Some _ => Some (errors.New ("unable to create partition table for device " ++ device))
   | None => None
   end, st').
Proof.
  intros Hrun. unfold CreatePartitionTable, bind, ret.
  rewrite ContainsString_supportedTypes, String.eqb_refl.
  cbn [negb]. cbv beta iota.
  rewrite Sprintf_CreatePartitionTableCmdTmpl.
  change (" mklabel " ++ "gpt") with " mklabel gpt". rewrite Hrun.
  destruct err; [now rewrite Errorf_create_table | reflexivity].
Qed.

Lemma GetPartitionTableType_ok (device stdout stderr : string) (st st' : St) :
  RunCmd (e p) ("partprobe -d -s " ++ device) st = ((stdout, stderr, None), st') ->
  GetPartitionTableType p device st =
  (match segmentAfter stdout " " with
   | Some ty => (ty, None)
   | None => ("", Some (errors.New ("unable to parse output '" ++ stdout
                                     ++ "' for device " ++ device)))
   end, st').
Proof.
  intros Hrun. unfold GetPartitionTableType, bind, ret.
  rewrite Sprintf_PartprobeDeviceCmdTmpl, Hrun.
  pose proof (Split_second stdout " " ltac:(discriminate)) as Hs.
  destruct (segmentAfter stdout " ") as [ty|].
  - destruct Hs as [Hl ->].
    destruct (Nat.ltb_spec (List.length (Split stdout " ")) 2); [lia | reflexivity].
  - rewrite Hs. simpl. now rewrite Errorf_parse_output.
Qed.

Lemma GetPartitionTableType_fail (device stdout stderr : string) (err : error)
  (st st' : St) :
  RunCmd (e p) ("partprobe -d -s " ++ device) st = ((stdout, stderr, Some err), st') ->
  GetPartitionTableType p device st =
  (("", Some (errors.New ("unable to get partition table for device " ++ device))), st').
Proof.
  intros Hrun. unfold GetPartitionTableType, bind, ret.
  now rewrite Sprintf_PartprobeDeviceCmdTmpl, Hrun, Errorf_get_table.
Qed.

Lemma CreatePartition_run (device partName stdout stderr : string) (err : option error)
  (st st' : St) :
  RunCmd (e p) ("parted -s " ++ device ++ " mkpart --align optimal " ++ partName
                ++ " 0% 100%") st = ((stdout, stderr, err), st') ->
  CreatePartition p device partName st = (err, st').
Proof.
  intros Hrun. unfold CreatePartition, bind, ret.
  rewrite Sprintf_CreatePartitionCmdTmpl, Hrun. now destruct err.
Qed.

Lemma DeletePartition_run (device partNum stdout stderr : string) (err : option error)
  (st st' : St) :
  RunCmd (e p) ("parted -s " ++ device ++ " rm " ++ partNum) st
  = ((stdout, stderr, err), st') ->
  DeletePartition p device partNum st =
  (match err with
   | Some err =>
       Some (errors.New ("unable to delete partition " ++ strconv.Quote partNum
                         ++ " from device " ++ device ++ ": " ++ stderr
                         ++ ", error: " ++ Error err))
   | None => None
   end, st').
Proof.
  intros Hrun. unfold DeletePartition, bind, ret.
  rewrite Sprintf_DeletePartitionCmdTmpl, Hrun.
  destruct err; [now rewrite Errorf_delete | reflexivity].
Qed.

Lemma SetPartitionUUID_run (device partNum partUUID stdout stderr : string)
  (err : option error) (st st' : St) :
  RunCmd (e p) ("sgdisk " ++ device ++ " --partition-guid=" ++ partNum ++ ":" ++ partUUID) st
  = ((stdout, stderr, err), st') ->
  SetPartitionUUID p device partNum partUUID st = (err, st').
Proof.
  intros Hrun. unfold SetPartitionUUID, bind, ret.
  rewrite Sprintf_SetPartitionUUIDCmdTmpl, Hrun. now destruct err.
Qed.

Lemma GetPartitionUUID_run (device partNum stdout stderr : string) (err : option error)
  (st st' : St) :
  RunCmd (e p) ("sgdisk " ++ device ++ " --info=" ++ partNum) st
  = ((stdout, stderr, err), st') ->
  GetPartitionUUID p device partNum st =
  (match err with
   | Some err => ("", Some err)
   | None =>
       match scanLines (Split stdout (String LF "")) with
       | Some uuid => (uuid, None)
       | None => ("", Some (errors.New ("unable to get partition GUID for device "
                                         ++ device)))
       end
   end, st').
Proof.
  intros Hrun. unfold GetPartitionUUID, bind, ret.
  rewrite Sprintf_GetPartitionUUIDCmdTmpl, Hrun.
  destruct err; [reflexivity|].
  destruct (scanLines _); [reflexivity | now rewrite Errorf_get_GUID].
Qed.

Lemma SyncPartitionTable_run (device stdout stderr : string) (err : option error)
  (st st' : St) :
  RunCmd (e p) ("partprobe " ++ device) st = ((stdout, stderr, err), st') ->
  SyncPartitionTable p device st = (err, st').
Proof.
  intros Hrun. unfold SyncPartitionTable, bind, ret.
  rewrite Sprintf_PartprobeCmdTmpl, Hrun. now destruct err.
Qed.

End MoreMethodLemmas.

(** What the spy records of one call. *)
Lemma RunCmd_spyExecutor {St : Type} (inner : CmdExecutor St) (cmd : string)
  (calls : list string) (st : St) :
  RunCmd (spyExecutor inner) cmd (calls, st) =
  (fst (RunCmd inner cmd st), ((calls ++ [cmd])%list, snd (RunCmd inner cmd st))).
Proof. simpl. now destruct (RunCmd inner cmd st). Qed.

(** A text that stands between two others is held by the whole. *)
Lemma Contains_inside_message (a m b : string) : Contains (a ++ m ++ b) m = true.
Proof. apply Contains_iff. now exists a, b. Qed.

(** C1: the supported types are "gpt" alone.  For any other type
    [CreatePartitionTable] returns an error that names the device and the
    type, and the spy records no call; for "gpt" the spy records one call,
    the command that creates the table, and the result is the one of that
    call.  The message holds the device as it is and the type as [%#v]
    prints it: between double quotes, as it is when it is plain text,
    escaped otherwise. *)
Theorem CreatePartitionTable_validates_type `{UnicodeTables} {St : Type}
  (inner : CmdExecutor St) (device partTableType : string)
  (calls : list string) (st : St) :
  supportedTypes = ["gpt"]
  /\ CreatePartitionTable (NewPartition (spyExecutor inner)) device partTableType (calls, st)
     = (if ("gpt" =? partTableType)%string
        then
          let cmd := "parted -s " ++ device ++ " mklabel gpt" in
          (match snd (fst (RunCmd inner cmd st)) with
           | Some _ =>
               Some (errors.New ("unable to create partition table for device " ++ device))
           | None => None
           end, ((calls ++ [cmd])%list, snd (RunCmd inner cmd st)))
        else
          (Some (errors.New ("unable to create partition table for device " ++ device
                             ++ " unsupported partition table type: "
                             ++ strconv.Quote partTableType)), (calls, st)))
  /\ Contains ("unable to create partition table for device " ++ device
               ++ " unsupported partition table type: " ++ strconv.Quote partTableType)
       device = true
  /\ (allBytes plainByte partTableType = true -> partTableType <> "gpt" ->
      CreatePartitionTable (NewPartition (spyExecutor inner)) device partTableType
        (calls, st)
      = (Some (errors.New ("unable to create partition table for device " ++ device
                           ++ " unsupported partition table type: "
                           ++ String dquote (partTableType ++ String dquote ""))),
         (calls, st))
      /\ Contains ("unable to create partition table for device " ++ device
                   ++ " unsupported partition table type: "
                   ++ String dquote (partTableType ++ String dquote ""))
           partTableType = true)
  /\ CreatePartitionTable (NewPartition (spyExecutor inner)) "/dev/sda" "msdos" (calls, st)
     = (Some (errors.New
                ("unable to create partition table for device /dev/sda unsupported partition table type: "
                 ++ String dquote ("msdos" ++ String dquote ""))), (calls, st))
  /\ CreatePartitionTable (NewPartition (spyExecutor inner)) "/dev/sda"
       ("g" ++ String dquote "pt") (calls, st)
     = (Some (errors.New
                ("unable to create partition table for device /dev/sda unsupported partition table type: "
                 ++ String dquote ("g" ++ String backslash
                                   (String dquote ("pt" ++ String dquote ""))))),
        (calls, st)).
Proof.
  split; [reflexivity|]. split; [|split; [|split; [|split]]].
  - destruct (String.eqb_spec "gpt" partTableType) as [<-|Hne].
    + cbv zeta.
      destruct (RunCmd inner ("parted -s " ++ device ++ " mklabel gpt") st)
        as [[[stdout stderr] err] st'] eqn:Hrun.
      erewrite CreatePartitionTable_gpt
        by (simpl e; rewrite RunCmd_spyExecutor, Hrun; reflexivity).
      reflexivity.
    + apply CreatePartitionTable_unsupported. congruence.
  - apply Contains_inside_message.
  - intros Hplain Hne. split.
    + rewrite (CreatePartitionTable_unsupported _ _ _ _ Hne).
      now rewrite (Quote_plain _ Hplain).
    + apply Contains_iff.
      exists ("unable to create partition table for device " ++ device
              ++ " unsupported partition table type: " ++ String dquote ""),
        (String dquote "").
      now rewrite !sapp_assoc.
  - now rewrite CreatePartitionTable_unsupported by discriminate.
  - now rewrite CreatePartitionTable_unsupported by discriminate.
Qed.

(** C7: for the empty device [SyncPartitionTable] issues the command
    "partprobe " and, that command succeeding, returns nil. *)
Theorem SyncPartitionTable_empty_device `{UnicodeTables} {St : Type}
  (inner : CmdExecutor St) (stdout stderr : string) (calls : list string) (st st' : St)
  (Hrun : RunCmd inner "partprobe " st = ((stdout, stderr, None), st')) :
  fmt.Sprintf PartprobeCmdTmpl [Str ""] = "partprobe "
  /\ SyncPartitionTable (NewPartition (spyExecutor inner)) "" (calls, st)
     = (None, ((calls ++ ["partprobe "])%list, st')).
Proof.
  split; [reflexivity|].
  erewrite SyncPartitionTable_run
    by (simpl e; simpl append; rewrite RunCmd_spyExecutor, Hrun; reflexivity).
  reflexivity.
Qed.

(** C6: whenever the executor reports an error for the command that a
    method of [Partition] gives it, the method returns an error;
    [IsPartitionExists] returns false with it, the two methods that return
    a string return the empty one.  ([CreatePartitionTable] with a type
    other than "gpt" gives the executor no command and returns an error
    all the same.) *)
Theorem executor_failure_propagates `{UnicodeTables} {St : Type} (p : Partition St) (st : St) :
  let fails := fun cmd : string => snd (fst (RunCmd (e p) cmd st)) <> None in
  (forall device partNum,
      fails ("partprobe -d -s " ++ device) ->
      exists err, fst (IsPartitionExists p device partNum st) = (false, Some err))
  /\ (forall device partTableType,
         fails ("parted -s " ++ device ++ " mklabel " ++ partTableType) ->
         exists err, fst (CreatePartitionTable p device partTableType st) = Some err)
  /\ (forall device,
         fails ("partprobe -d -s " ++ device) ->
         exists err, fst (GetPartitionTableType p device st) = ("", Some err))
  /\ (forall device partName,
         fails ("parted -s " ++ device ++ " mkpart --align optimal " ++ partName
                ++ " 0% 100%") ->
         exists err, fst (CreatePartition p device partName st) = Some err)
  /\ (forall device partNum,
         fails ("parted -s " ++ device ++ " rm " ++ partNum) ->
         exists err, fst (DeletePartition p device partNum st) = Some err)
  /\ (forall device partNum partUUID,
         fails ("sgdisk " ++ device ++ " --partition-guid=" ++ partNum ++ ":" ++ partUUID) ->
         exists err, fst (SetPartitionUUID p device partNum partUUID st) = Some err)
  /\ (forall device partNum,
         fails ("sgdisk " ++ device ++ " --info=" ++ partNum) ->
         exists err, fst (GetPartitionUUID p device partNum st) = ("", Some err))
  /\ (forall device,
         fails ("partprobe " ++ device) ->
         exists err, fst (SyncPartitionTable p device st) = Some err).
Proof.
  intros fails.
  assert (Hrun : forall cmd, fails cmd -> exists stdout stderr err st',
             RunCmd (e p) cmd st = ((stdout, stderr, Some err), st')).
  { intros cmd Hfail. unfold fails in Hfail.
    destruct (RunCmd (e p) cmd st) as [[[stdout stderr] [err|]] st'];
      [now exists stdout, stderr, err, st' | now simpl in Hfail]. }
  split; [|split; [|split; [|split; [|split; [|split; [|split]]]]]].
  - intros device partNum Hfail.
    destruct (Hrun _ Hfail) as (o & s & err & st' & Hr).
    rewrite (IsPartitionExists_fail p _ _ _ _ _ _ _ Hr). now eexists.
  - intros device partTableType Hfail.
    destruct (String.eqb_spec partTableType "gpt") as [->|Hne].
    + destruct (Hrun _ Hfail) as (o & s & err & st' & Hr).
      change (" mklabel " ++ "gpt") with " mklabel gpt" in Hr.
      rewrite (CreatePartitionTable_gpt p _ _ _ _ _ _ Hr). now eexists.
    + rewrite (CreatePartitionTable_unsupported p _ _ _ Hne). now eexists.
  - intros device Hfail.
    destruct (Hrun _ Hfail) as (o & s & err & st' & Hr).
    rewrite (GetPartitionTableType_fail p _ _ _ _ _ _ Hr). now eexists.
  - intros device partName Hfail.
    destruct (Hrun _ Hfail) as (o & s & err & st' & Hr).
    rewrite (CreatePartition_run p _ _ _ _ _ _ _ Hr). now eexists.
  - intros device partNum Hfail.
    destruct (Hrun _ Hfail) as (o & s & err & st' & Hr).
    rewrite (DeletePartition_run p _ _ _ _ _ _ _ Hr). now eexists.
  - intros device partNum partUUID Hfail.
    destruct (Hrun _ Hfail) as (o & s & err & st' & Hr).
    rewrite (SetPartitionUUID_run p _ _ _ _ _ _ _ _ Hr). now eexists.
  - intros device partNum Hfail.
    destruct (Hrun _ Hfail) as (o & s & err & st' & Hr).
    rewrite (GetPartitionUUID_run p _ _ _ _ _ _ _ Hr). now eexists.
  - intros device Hfail.
    destruct (Hrun _ Hfail) as (o & s & err & st' & Hr).
    rewrite (SyncPartitionTable_run p _ _ _ _ _ _ Hr). now eexists.
Qed.

Lemma Contains_middle (a m b : string) : Contains (a ++ m ++ b) m = true.
Proof. apply Contains_iff. now exists a, b. Qed.

(** C8 (as amended): on a failure of the executor [DeletePartition] returns
    an error whose message holds the device, the partition number as [%#v]
    prints it (between double quotes, as it is when it is plain text,
    escaped otherwise) and the standard error of the tool;
    [CreatePartition] and [SetPartitionUUID] return the error of the
    executor as it is.  Each method is taken with the failure of its own
    command. *)
Theorem DeletePartition_wraps_error `{UnicodeTables} {St : Type} (p : Partition St)
  (device partNum partName partUUID : string) (st : St) :
  (forall stdout stderr err st',
      RunCmd (e p) ("parted -s " ++ device ++ " rm " ++ partNum) st
      = ((stdout, stderr, Some err), st') ->
      let msg := "unable to delete partition " ++ strconv.Quote partNum
                 ++ " from device " ++ device ++ ": " ++ stderr
                 ++ ", error: " ++ Error err in
      DeletePartition p device partNum st = (Some (errors.New msg), st')
      /\ Contains msg device = true
      /\ Contains msg (strconv.Quote partNum) = true
      /\ Contains msg stderr = true
      /\ Contains msg (Error err) = true
      /\ (allBytes plainByte partNum = true ->
          msg = "unable to delete partition "
                ++ String dquote (partNum ++ String dquote
                     (" from device " ++ device ++ ": " ++ stderr
                      ++ ", error: " ++ Error err))
          /\ Contains msg partNum = true))
  /\ (forall stdout stderr err st',
         RunCmd (e p) ("parted -s " ++ device ++ " mkpart --align optimal " ++ partName
                       ++ " 0% 100%") st
         = ((stdout, stderr, Some err), st') ->
         CreatePartition p device partName st = (Some err, st'))
  /\ (forall stdout stderr err st',
         RunCmd (e p) ("sgdisk " ++ device ++ " --partition-guid=" ++ partNum ++ ":"
                       ++ partUUID) st
         = ((stdout, stderr, Some err), st') ->
         SetPartitionUUID p device partNum partUUID st = (Some err, st')).
Proof.
  split; [|split].
  - intros stdout stderr err st' Hrm msg. subst msg.
    split; [exact (DeletePartition_run p _ _ _ _ _ _ _ Hrm)|].
    split.
    { rewrite <- (sapp_assoc _ (strconv.Quote partNum)),
        <- (sapp_assoc _ " from device ").
      apply Contains_middle. }
    split; [apply Contains_middle|].
    split.
    { rewrite <- (sapp_assoc _ (strconv.Quote partNum)),
        <- (sapp_assoc _ " from device "),
        <- (sapp_assoc _ device), <- (sapp_assoc _ ": ").
      apply Contains_middle. }
    split.
    { apply Contains_iff. eexists _, "". rewrite sapp_nil_r.
      rewrite <- (sapp_assoc _ (strconv.Quote partNum)),
        <- (sapp_assoc _ " from device "),
        <- (sapp_assoc _ device), <- (sapp_assoc _ ": "), <- (sapp_assoc _ stderr),
        <- (sapp_assoc _ ", error: ").
      reflexivity. }
    intros Hplain. rewrite (Quote_plain _ Hplain). split.
    + simpl. now rewrite !sapp_assoc.
    + change (String dquote (partNum ++ String dquote ""))
        with (String dquote "" ++ partNum ++ String dquote "").
      rewrite !sapp_assoc, <- (sapp_assoc "unable to delete partition ").
      apply Contains_middle.
  - intros stdout stderr err st' Hmk.
    exact (CreatePartition_run p _ _ _ _ _ _ _ Hmk).
  - intros stdout stderr err st' Hset.
    exact (SetPartitionUUID_run p _ _ _ _ _ _ _ _ Hset).
Qed.

(** C4 (as amended): with a succeeding executor [GetPartitionTableType]
    splits the output of the probe at the space character: it returns the
    text between the first space and the next one (or the end of the
    output) when that text is not empty, "msdos" for
    "/dev/sda: msdos partitions 1", and a parse error that names the device
    when the output holds no space. *)
Theorem GetPartitionTableType_single_space `{UnicodeTables} {St : Type} (p : Partition St)
  (device stdout stderr : string) (st st' : St)
  (Hrun : RunCmd (e p) ("partprobe -d -s " ++ device) st = ((stdout, stderr, None), st')) :
  (forall ty, segmentAfter stdout " " = Some ty -> ty <> "" ->
      GetPartitionTableType p device st = ((ty, None), st'))
  /\ (Contains stdout " " = false ->
      GetPartitionTableType p device st
      = (("", Some (errors.New ("unable to parse output '" ++ stdout
                                ++ "' for device " ++ device))), st'))
  /\ fst (GetPartitionTableType
            (NewPartition (stubExecutor "/dev/sda: msdos partitions 1" stderr None))
            device tt) = ("msdos", None).
Proof.
  rewrite (GetPartitionTableType_ok p _ _ _ _ _ Hrun).
  split; [|split].
  - intros ty -> _. reflexivity.
  - intros Hno. apply segmentAfter_None in Hno. now rewrite Hno.
  - erewrite GetPartitionTableType_ok by (simpl; reflexivity). reflexivity.
Qed.

(** ** The scan of [GetPartitionUUID] *)

Lemma partitionPresentation_unbordered : unbordered partitionPresentation = true.
Proof. reflexivity. Qed.

Section ScanLemmas.
Context `{UnicodeTables}.

(** Lines without the label are passed over. *)
Lemma scanLines_skip (before rest : list string) :
  (forall l, In l before -> Contains l partitionPresentation = false) ->
  scanLines (before ++ rest)%list = scanLines rest.
Proof.
  induction before as [|l before IH]; intros Hno; simpl; [reflexivity|].
  rewrite (Hno l) by now left.
  apply IH. intros l' Hl'. apply Hno. now right.
Qed.

Lemma scanLines_none (lines : list string) :
  (forall l, In l lines -> Contains l partitionPresentation = false) ->
  scanLines lines = None.
Proof.
  intros Hno. rewrite <- (app_nil_r lines). now rewrite scanLines_skip.
Qed.

(** A line with the label: trimmed, it is cut at the label, and what
    follows the label is trimmed and put in lower case. *)
Lemma scanLines_label (pre guid : string) (rest : list string) :
  Contains pre partitionPresentation = false ->
  Contains guid partitionPresentation = false ->
  scanLines ((pre ++ partitionPresentation ++ guid) :: rest)
  = Some (ToLower (TrimSpace guid)).
Proof.
  intros Hpre Hguid. cbn [scanLines].
  rewrite Contains_middle.
  assert (Htrim : TrimSpace (pre ++ partitionPresentation ++ guid)
                  = TrimLeftSpace pre ++ partitionPresentation ++ TrimRightSpace guid).
  { unfold TrimSpace.
    change (partitionPresentation ++ guid)
      with (String "P" ("artition unique GUID:" ++ guid)).
    rewrite TrimLeftSpace_app_stop by (reflexivity || (cbv; lia)).
    change (String "P" ("artition unique GUID:" ++ guid))
      with ("Partition unique GUID" ++ String ":" guid).
    rewrite <- sapp_assoc, TrimRightSpace_app_stop by (reflexivity || (cbv; lia)).
    now rewrite sapp_assoc. }
  rewrite Htrim.
  assert (Hpre' : Contains (TrimLeftSpace pre) partitionPresentation = false).
  { destruct (TrimLeftSpace_suffix pre) as [w Hw].
    rewrite Hw, <- (sapp_nil_r (TrimLeftSpace pre)) in Hpre.
    exact (Contains_false_inside _ _ _ _ Hpre). }
  assert (Hguid' : Contains (TrimRightSpace guid) partitionPresentation = false).
  { destruct (TrimRightSpace_prefix guid) as [w Hw].
    rewrite Hw in Hguid.
    exact (Contains_false_inside "" _ _ _ Hguid). }
  rewrite Split_unfold by discriminate.
  rewrite (Index_after _ _ _ partitionPresentation_unbordered Hpre').
  rewrite <- drop_drop, drop_app_length, drop_app_length.
  rewrite Split_unfold by discriminate.
  rewrite (Index_None_Contains _ _ Hguid').
  cbn [List.length nth Nat.ltb Nat.leb].
  now rewrite TrimSpace_TrimRightSpace.
Qed.

End ScanLemmas.

(** C2, the part the code does not keep: a line that holds the label and
    nothing after it, or white space only, makes [GetPartitionUUID] return
    the empty string with a nil error, where the claim asks for a parse
    error. *)
Theorem GetPartitionUUID_label_without_value `{UnicodeTables}
  (device partNum stderr : string) :
  GetPartitionUUID (NewPartition (stubExecutor "Partition unique GUID:" stderr None))
    device partNum tt = (("", None), tt)
  /\ GetPartitionUUID (NewPartition (stubExecutor "Partition unique GUID:   " stderr None))
       device partNum tt = (("", None), tt).
Proof.
  split; (erewrite GetPartitionUUID_run by (simpl; reflexivity)); reflexivity.
Qed.

(** X1: when no line of the report holds the label, [GetPartitionUUID]
    returns a parse error that names the device. *)
Theorem GetPartitionUUID_no_label `{UnicodeTables} {St : Type} (p : Partition St)
  (device partNum stdout stderr : string) (st st' : St)
  (Hrun : RunCmd (e p) ("sgdisk " ++ device ++ " --info=" ++ partNum) st
          = ((stdout, stderr, None), st'))
  (Hno : forall l, In l (Split stdout (String LF "")) ->
                   Contains l partitionPresentation = false) :
  GetPartitionUUID p device partNum st
  = (("", Some (errors.New ("unable to get partition GUID for device " ++ device))), st').
Proof.
  rewrite (GetPartitionUUID_run p _ _ _ _ _ _ _ Hrun).
  now rewrite (scanLines_none _ Hno).
Qed.

(** * Further properties of the methods *)

(** X2: every method other than [CreatePartitionTable] issues one command,
    whatever its arguments: behind a spy, the record of calls grows by the
    command of the method's template. *)
Theorem methods_issue_their_command `{UnicodeTables} {St : Type}
  (inner : CmdExecutor St) (device partNum partName partUUID : string)
  (calls : list string) (st : St) :
  let p := NewPartition (spyExecutor inner) in
  fst (snd (IsPartitionExists p device partNum (calls, st)))
  = (calls ++ [("partprobe -d -s " ++ device)%string])%list
  /\ fst (snd (GetPartitionTableType p device (calls, st)))
     = (calls ++ [("partprobe -d -s " ++ device)%string])%list
  /\ fst (snd (CreatePartition p device partName (calls, st)))
     = (calls ++ [("parted -s " ++ device ++ " mkpart --align optimal " ++ partName
                  ++ " 0% 100%")%string])%list
  /\ fst (snd (DeletePartition p device partNum (calls, st)))
     = (calls ++ [("parted -s " ++ device ++ " rm " ++ partNum)%string])%list
  /\ fst (snd (SetPartitionUUID p device partNum partUUID (calls, st)))
     = (calls ++ [("sgdisk " ++ device ++ " --partition-guid=" ++ partNum ++ ":"
                  ++ partUUID)%string])%list
  /\ fst (snd (GetPartitionUUID p device partNum (calls, st)))
     = (calls ++ [("sgdisk " ++ device ++ " --info=" ++ partNum)%string])%list
  /\ fst (snd (SyncPartitionTable p device (calls, st)))
     = (calls ++ [("partprobe " ++ device)%string])%list.
Proof.
  intros p.
  assert (Hspy : forall cmd, exists stdout stderr err st',
             RunCmd (e p) cmd (calls, st)
             = ((stdout, stderr, err), ((calls ++ [cmd])%list, st'))).
  { intros cmd. subst p. simpl e. rewrite RunCmd_spyExecutor.
    destruct (RunCmd inner cmd st) as [[[stdout stderr] err] st'].
    now exists stdout, stderr, err, st'. }
  split; [|split; [|split; [|split; [|split; [|split]]]]].
  - destruct (Hspy ("partprobe -d -s " ++ device)) as (o & s & [err|] & st' & Hr).
    + now rewrite (IsPartitionExists_fail p _ _ _ _ _ _ _ Hr).
    + now rewrite (IsPartitionExists_ok p _ _ _ _ _ _ Hr).
  - destruct (Hspy ("partprobe -d -s " ++ device)) as (o & s & [err|] & st' & Hr).
    + now rewrite (GetPartitionTableType_fail p _ _ _ _ _ _ Hr).
    + now rewrite (GetPartitionTableType_ok p _ _ _ _ _ Hr).
  - destruct (Hspy ("parted -s " ++ device ++ " mkpart --align optimal " ++ partName
                    ++ " 0% 100%")) as (o & s & err & st' & Hr).
    now rewrite (CreatePartition_run p _ _ _ _ _ _ _ Hr).
  - destruct (Hspy ("parted -s " ++ device ++ " rm " ++ partNum))
      as (o & s & err & st' & Hr).
    now rewrite (DeletePartition_run p _ _ _ _ _ _ _ Hr).
  - destruct (Hspy ("sgdisk " ++ device ++ " --partition-guid=" ++ partNum ++ ":"
                    ++ partUUID)) as (o & s & err & st' & Hr).
    now rewrite (SetPartitionUUID_run p _ _ _ _ _ _ _ _ Hr).
  - destruct (Hspy ("sgdisk " ++ device ++ " --info=" ++ partNum))
      as (o & s & err & st' & Hr).
    now rewrite (GetPartitionUUID_run p _ _ _ _ _ _ _ Hr).
  - destruct (Hspy ("partprobe " ++ device)) as (o & s & err & st' & Hr).
    now rewrite (SyncPartitionTable_run p _ _ _ _ _ _ Hr).
Qed.

(** X3: on a failure of the executor [CreatePartitionTable] (for "gpt") and
    [GetPartitionTableType] return an error of their own that names the
    device, and not the one of the executor; [GetPartitionUUID] and
    [SyncPartitionTable] return the error of the executor as it is.  Each
    method is taken with the failure of its own command. *)
Theorem failure_wrapped_or_not `{UnicodeTables} {St : Type} (p : Partition St)
  (device partNum : string) (st : St) :
  (forall stdout stderr err st',
      RunCmd (e p) ("parted -s " ++ device ++ " mklabel gpt") st
      = ((stdout, stderr, Some err), st') ->
      CreatePartitionTable p device "gpt" st
      = (Some (errors.New ("unable to create partition table for device " ++ device)), st'))
  /\ (forall stdout stderr err st',
         RunCmd (e p) ("partprobe -d -s " ++ device) st
         = ((stdout, stderr, Some err), st') ->
         GetPartitionTableType p device st
         = (("", Some (errors.New ("unable to get partition table for device " ++ device))),
            st'))
  /\ (forall stdout stderr err st',
         RunCmd (e p) ("sgdisk " ++ device ++ " --info=" ++ partNum) st
         = ((stdout, stderr, Some err), st') ->
         GetPartitionUUID p device partNum st = (("", Some err), st'))
  /\ (forall stdout stderr err st',
         RunCmd (e p) ("partprobe " ++ device) st
         = ((stdout, stderr, Some err), st') ->
         SyncPartitionTable p device st = (Some err, st')).
Proof.
  split; [|split; [|split]]; intros stdout stderr err st' Hrun.
  - exact (CreatePartitionTable_gpt p _ _ _ _ _ _ Hrun).
  - exact (GetPartitionTableType_fail p _ _ _ _ _ _ Hrun).
  - exact (GetPartitionUUID_run p _ _ _ _ _ _ _ Hrun).
  - exact (SyncPartitionTable_run p _ _ _ _ _ _ Hrun).
Qed.

(** * Further lemmas on byte strings *)

(** ** A text with solid ends between two others *)

Lemma solidEnds_head (t : string) :
  solidEnds t = true ->
  exists p t', t = String p t' /\ ord p < 128 /\ asciiSpace p = false.
Proof.
  unfold solidEnds, solidByte. destruct t as [|p t']; [discriminate|].
  destruct (rev (String p t')); [discriminate|].
  rewrite !andb_true_iff, negb_true_iff, Nat.ltb_lt. unfold utf8.RuneSelf.
  intros [[Hp Hs] _]. now exists p, t'.
Qed.

Lemma solidEnds_last (t : string) :
  solidEnds t = true ->
  exists q t', t = t' ++ String q "" /\ ord q < 128 /\ asciiSpace q = false.
Proof.
  unfold solidEnds, solidByte. destruct t as [|p t0]; [discriminate|].
  destruct (rev (String p t0)) as [|q r] eqn:Hrev; [discriminate|].
  rewrite !andb_true_iff, !negb_true_iff, !Nat.ltb_lt. unfold utf8.RuneSelf.
  intros [_ [Hq Hs]]. exists q, (rev r). split; [|now split].
  rewrite <- (rev_involutive (String p t0)), Hrev. reflexivity.
Qed.

(** Neither trim goes into a text with solid ends, whatever stands around
    it. *)
Lemma TrimSpace_around (a t b : string) :
  solidEnds t = true ->
  TrimSpace (a ++ t ++ b) = TrimLeftSpace a ++ t ++ TrimRightSpace b.
Proof.
  intros Ht. unfold TrimSpace.
  destruct (solidEnds_head _ Ht) as (p & t' & Et & Hp & Hps).
  rewrite Et at 1. change (String p t' ++ b) with (String p (t' ++ b)).
  rewrite TrimLeftSpace_app_stop by assumption.
  change (String p (t' ++ b)) with (String p t' ++ b). rewrite <- Et.
  destruct (solidEnds_last _ Ht) as (q & t'' & Et' & Hq & Hqs).
  rewrite Et'. rewrite (sapp_assoc t''). rewrite <- (sapp_assoc _ t'').
  change (String q "" ++ b) with (String q b).
  rewrite TrimRightSpace_app_stop by assumption.
  now rewrite !sapp_assoc.
Qed.

Lemma Contains_TrimSpace (s t : string) :
  solidEnds t = true -> Contains s t = true -> Contains (TrimSpace s) t = true.
Proof.
  intros Ht Hs. apply Contains_iff in Hs as (a & b & ->).
  rewrite TrimSpace_around by assumption. apply Contains_middle.
Qed.

(** ** The first instance and what stands before it *)

Lemma HasPrefix_take (n : nat) (s t : string) :
  HasPrefix (take n s) t = true -> HasPrefix s t = true.
Proof.
  revert n s; induction t as [|x t IH]; intros n s; [now destruct s|].
  destruct n as [|n], s as [|y s]; simpl; try discriminate.
  rewrite !andb_true_iff. intros [Hxy Ht]. split; [assumption|].
  now apply (IH n).
Qed.

(** The text before the first instance of [t] does not hold [t]. *)
Lemma Contains_take_Index (s t : string) (j : nat) :
  Index s t = Some j -> t <> "" -> Contains (take j s) t = false.
Proof.
  intros Hj Ht. unfold Contains.
  enough (Index (take j s) t = None) as -> by reflexivity.
  revert j Hj; induction s as [|c s IH]; intros j; rewrite Index_eq.
  - destruct (HasPrefix "" t) eqn:Hp; [|discriminate].
    destruct t; [congruence | discriminate].
  - destruct (HasPrefix (String c s) t) eqn:Hp.
    + intros [= <-]. simpl take. rewrite Index_eq.
      destruct t; [congruence | reflexivity].
    + destruct (Index s t) as [j'|] eqn:Hj'; [|discriminate].
      intros [= <-]. simpl take. rewrite Index_eq.
      destruct (HasPrefix (String c (take j' s)) t) eqn:Hp'.
      * apply (HasPrefix_take (S j') (String c s)) in Hp'. congruence.
      * now rewrite (IH j' eq_refl).
Qed.

Lemma segmentAfter_no_token (s t seg : string) :
  t <> "" -> segmentAfter s t = Some seg -> Contains seg t = false.
Proof.
  intros Ht. unfold segmentAfter, remainderAfter.
  destruct (Index s t) as [i|]; [|discriminate].
  destruct (Index (drop (i + String.length t) s) t) as [j|] eqn:Hj; intros [= <-].
  - exact (Contains_take_Index _ _ _ Hj Ht).
  - unfold Contains. now rewrite Hj.
Qed.

(** * Further properties of the methods, continued *)

Section ScanMatch.
Context `{UnicodeTables}.

(** A line that holds the label ends the scan: after the trim the split
    has two elements or more. *)
Lemma scanLines_match (line : string) (rest : list string) :
  Contains line partitionPresentation = true ->
  exists uuid, scanLines (line :: rest) = Some uuid.
Proof.
  intros Hl. cbn [scanLines]. rewrite Hl.
  pose proof (Contains_TrimSpace line partitionPresentation eq_refl Hl) as Ht.
  pose proof (Split_second (TrimSpace line) partitionPresentation ltac:(discriminate))
    as Hs.
  destruct (segmentAfter (TrimSpace line) partitionPresentation) as [seg|] eqn:Hseg.
  - destruct Hs as [Hlen _]. apply Nat.ltb_lt in Hlen. rewrite Hlen. now eexists.
  - apply segmentAfter_None in Hseg. congruence.
Qed.

Lemma scanLines_some_iff (lines : list string) :
  (exists uuid, scanLines lines = Some uuid)
  <-> exists l, In l lines /\ Contains l partitionPresentation = true.
Proof.
  induction lines as [|line lines IH].
  - split; [intros [uuid [=]] | intros (l & [] & _)].
  - destruct (Contains line partitionPresentation) eqn:Hl.
    + split; [|intros _; now apply scanLines_match].
      intros _. exists line. split; [now left | assumption].
    + cbn [scanLines]. rewrite Hl, IH. split.
      * intros (l & Hin & Hc). exists l. split; [now right | assumption].
      * intros (l & [<-|Hin] & Hc); [congruence|]. now exists l.
Qed.

End ScanMatch.

(** X4: with a succeeding executor [GetPartitionUUID] returns without error
    exactly when a line of the report holds the label
    "Partition unique GUID:", whatever follows the label on that line. *)
Theorem GetPartitionUUID_succeeds_iff_label `{UnicodeTables} {St : Type} (p : Partition St)
  (device partNum stdout stderr : string) (st st' : St)
  (Hrun : RunCmd (e p) ("sgdisk " ++ device ++ " --info=" ++ partNum) st
          = ((stdout, stderr, None), st')) :
  snd (fst (GetPartitionUUID p device partNum st)) = None
  <-> exists l, In l (Split stdout (String LF ""))
                /\ Contains l partitionPresentation = true.
Proof.
  rewrite (GetPartitionUUID_run p _ _ _ _ _ _ _ Hrun), <- scanLines_some_iff.
  destruct (scanLines (Split stdout (String LF ""))) as [uuid|]; simpl; split.
  - intros _. now exists uuid.
  - reflexivity.
  - discriminate.
  - intros [uuid [=]].
Qed.

(** X5: when [IsPartitionExists] answers true, the output of the probe
    holds the token "partitions" with text after it: trimmed, the output
    has a remainder after the first instance of the token, and it is not
    empty. *)
Theorem IsPartitionExists_true_remainder `{UnicodeTables} {St : Type} (p : Partition St)
  (device partNum stdout stderr : string) (st st' : St)
  (Hrun : RunCmd (e p) ("partprobe -d -s " ++ device) st = ((stdout, stderr, None), st'))
  (Htrue : fst (fst (IsPartitionExists p device partNum st)) = true) :
  Contains stdout "partitions" = true
  /\ exists rest, remainderAfter (TrimSpace stdout) "partitions" = Some rest /\ rest <> "".
Proof.
  rewrite (IsPartitionExists_ok p _ _ _ _ _ _ Hrun) in Htrue. simpl in Htrue.
  unfold segmentAfter in Htrue.
  destruct (remainderAfter (TrimSpace stdout) "partitions") as [rest|] eqn:Hrest;
    [|discriminate].
  split.
  - unfold remainderAfter in Hrest.
    destruct (Index (TrimSpace stdout) "partitions") as [i|] eqn:Hi; [|discriminate].
    destruct (TrimSpace_inside stdout) as (a & b & Hab). rewrite Hab.
    apply Contains_inside. unfold Contains. now rewrite Hi.
  - exists rest. split; [reflexivity|]. intros ->.
    vm_compute in Htrue. discriminate.
Qed.

(** X6: the table type that [GetPartitionTableType] returns holds no space,
    whatever the executor answers. *)
Theorem GetPartitionTableType_no_space `{UnicodeTables} {St : Type} (p : Partition St)
  (device : string) (st : St) :
  Contains (fst (fst (GetPartitionTableType p device st))) " " = false.
Proof.
  destruct (RunCmd (e p) ("partprobe -d -s " ++ device) st)
    as [[[stdout stderr] [err|]] st'] eqn:Hrun.
  - now rewrite (GetPartitionTableType_fail p _ _ _ _ _ _ Hrun).
  - rewrite (GetPartitionTableType_ok p _ _ _ _ _ Hrun).
    destruct (segmentAfter stdout " ") as [ty|] eqn:Hseg; [|reflexivity].
    simpl fst. apply (segmentAfter_no_token stdout " " ty); [discriminate | exact Hseg].
Qed.

(** ** More on [Contains], the trims and the segment after a token *)

Lemma HasPrefix_nil (s : string) : HasPrefix s "" = true.
Proof. now destruct s. Qed.

Lemma Contains_app_byte (a b : string) (c : ascii) :
  Contains (a ++ b) (String c "") = Contains a (String c "") || Contains b (String c "").
Proof.
  unfold Contains. induction a as [|x a IH]; [reflexivity|].
  change (String x a ++ b) with (String x (a ++ b)).
  rewrite (Index_eq (String x (a ++ b))), (Index_eq (String x a)). simpl HasPrefix.
  rewrite !HasPrefix_nil.
  destruct (Ascii.eqb c x); simpl; [reflexivity|].
  destruct (Index (a ++ b) (String c "")), (Index a (String c "")); simpl in *;
    congruence.
Qed.

Lemma Contains_TrimLeftSpace_false (s t : string) :
  Contains s t = false -> Contains (TrimLeftSpace s) t = false.
Proof.
  intros Hs. destruct (TrimLeftSpace_suffix s) as [w Hw].
  rewrite Hw, <- (sapp_nil_r (TrimLeftSpace s)) in Hs.
  exact (Contains_false_inside _ _ _ _ Hs).
Qed.

Lemma Contains_TrimRightSpace_false (s t : string) :
  Contains s t = false -> Contains (TrimRightSpace s) t = false.
Proof.
  intros Hs. destruct (TrimRightSpace_prefix s) as [w Hw].
  rewrite Hw in Hs. exact (Contains_false_inside "" _ _ _ Hs).
Qed.

(** The segment after the one instance of [t] is all that follows it. *)
Lemma segmentAfter_one (a t b : string) :
  unbordered t = true -> Contains a t = false -> Contains b t = false ->
  segmentAfter (a ++ t ++ b) t = Some b.
Proof.
  intros Hu Ha Hb. unfold segmentAfter, remainderAfter.
  rewrite (Index_after _ _ _ Hu Ha).
  rewrite <- drop_drop, !drop_app_length.
  now rewrite (Index_None_Contains _ _ Hb).
Qed.

(** The segment after the first of two instances is what stands between
    them. *)
Lemma segmentAfter_two (a t b c : string) :
  unbordered t = true -> Contains a t = false -> Contains b t = false ->
  segmentAfter (a ++ t ++ b ++ t ++ c) t = Some b.
Proof.
  intros Hu Ha Hb. unfold segmentAfter, remainderAfter.
  rewrite (Index_after _ _ _ Hu Ha).
  rewrite <- drop_drop, !drop_app_length.
  rewrite (Index_after _ _ _ Hu Hb).
  now rewrite take_app_length.
Qed.

Lemma TrimLeftSpace_ws_app (w s : string) :
  allBytes asciiSpace w = true -> TrimLeftSpace (w ++ s) = TrimLeftSpace s.
Proof.
  induction w as [|c w IH]; [reflexivity|].
  simpl allBytes. intros Hw. apply andb_true_iff in Hw as [Hc Hw].
  simpl. rewrite Hc. now apply IH.
Qed.

Lemma TrimSpace_app_ws_bytes (s w : string) :
  allBytes asciiSpace w = true -> TrimSpace (s ++ w) = TrimSpace s.
Proof.
  revert s; induction w as [|c w IH]; intros s; [now rewrite sapp_nil_r|].
  simpl allBytes. intros Hw. apply andb_true_iff in Hw as [Hc Hw].
  change (String c w) with (String c "" ++ w).
  rewrite <- sapp_assoc, (IH _ Hw).
  apply TrimSpace_app_ws. now constructor.
Qed.

(** ASCII white space around a text does not change what [TrimSpace]
    leaves of it. *)
Lemma TrimSpace_ws_around (w1 s w2 : string) :
  allBytes asciiSpace w1 = true -> allBytes asciiSpace w2 = true ->
  TrimSpace (w1 ++ s ++ w2) = TrimSpace s.
Proof.
  intros H1 H2. rewrite <- sapp_assoc, (TrimSpace_app_ws_bytes _ _ H2).
  unfold TrimSpace. now rewrite (TrimLeftSpace_ws_app _ _ H1).
Qed.

Lemma solidByte_inv (q : ascii) :
  solidByte q = true -> ord q < 128 /\ asciiSpace q = false.
Proof.
  unfold solidByte, utf8.RuneSelf.
  rewrite andb_true_iff, negb_true_iff, Nat.ltb_lt. tauto.
Qed.

Lemma TrimRightSpace_app_ws_bytes (s w : string) :
  allBytes asciiSpace w = true -> TrimRightSpace (s ++ w) = TrimRightSpace s.
Proof.
  revert s; induction w as [|c w IH]; intros s; [now rewrite sapp_nil_r|].
  simpl allBytes. intros Hw. apply andb_true_iff in Hw as [Hc Hw].
  change (String c w) with (String c "" ++ w).
  rewrite <- sapp_assoc, (IH _ Hw).
  apply TrimRightSpace_step. now constructor.
Qed.

(** The right trim of a text that is empty or ends with a solid byte,
    followed by ASCII white space, is that text. *)
Lemma TrimRightSpace_exact (l w : string) :
  allBytes asciiSpace w = true ->
  l = "" \/ (exists x q, l = x ++ String q "" /\ solidByte q = true) ->
  TrimRightSpace (l ++ w) = l.
Proof.
  intros Hw Hl. rewrite (TrimRightSpace_app_ws_bytes _ _ Hw).
  destruct Hl as [->|(x & q & -> & Hq)]; [reflexivity|].
  apply solidByte_inv in Hq as [Hq Hs].
  now rewrite TrimRightSpace_app_stop.
Qed.

(** X7: the output of the probe in the form that the source documents,
    [<device>: <type> partitions<list>], the list being a text [l] that is
    empty or ends with a byte that is not white space, followed by ASCII
    white space [w].  When device and type hold no space and the token
    "partitions" stands nowhere else, [GetPartitionTableType] returns the
    type, and [IsPartitionExists] answers true exactly when [l] is not
    empty. *)
Theorem probe_line `{UnicodeTables} {St : Type} (p : Partition St)
  (device partNum dev ty l w stderr : string) (st st' : St)
  (Hrun : RunCmd (e p) ("partprobe -d -s " ++ device) st
          = ((dev ++ ": " ++ ty ++ " partitions" ++ l ++ w, stderr, None), st'))
  (Hdev : Contains dev " " = false)
  (Hty : Contains ty " " = false)
  (Hhead : Contains (dev ++ ": " ++ ty ++ " ") "partitions" = false)
  (Hlist : Contains (l ++ w) "partitions" = false)
  (Hw : allBytes asciiSpace w = true)
  (Hl : l = "" \/ exists x q, l = x ++ String q "" /\ solidByte q = true) :
  GetPartitionTableType p device st = ((ty, None), st')
  /\ IsPartitionExists p device partNum st = ((negb (l =? "")%string, None), st').
Proof.
  split.
  - rewrite (GetPartitionTableType_ok p _ _ _ _ _ Hrun).
    replace (dev ++ ": " ++ ty ++ " partitions" ++ l ++ w)
      with ((dev ++ ":") ++ " " ++ ty ++ " " ++ "partitions" ++ l ++ w)
      by (now rewrite sapp_assoc).
    rewrite segmentAfter_two; [reflexivity | reflexivity | | assumption].
    rewrite Contains_app_byte, Hdev. reflexivity.
  - rewrite (IsPartitionExists_ok p _ _ _ _ _ _ Hrun).
    replace (dev ++ ": " ++ ty ++ " partitions" ++ l ++ w)
      with ((dev ++ ": " ++ ty ++ " ") ++ "partitions" ++ (l ++ w))
      by (now rewrite !sapp_assoc).
    rewrite TrimSpace_around by reflexivity.
    rewrite segmentAfter_one; [| reflexivity | |].
    + now rewrite (TrimRightSpace_exact _ _ Hw Hl).
    + now apply Contains_TrimLeftSpace_false.
    + now apply Contains_TrimRightSpace_false.
Qed.

(** X8: ASCII white space in front of the output of the probe and behind
    it, such as the line feed that ends it, does not change the answer of
    [IsPartitionExists]. *)
Theorem IsPartitionExists_ignores_outer_space `{UnicodeTables} {St : Type}
  (p : Partition St) (device partNum stdout w1 w2 stderr1 stderr2 : string)
  (st1 st1' st2 st2' : St)
  (Hrun1 : RunCmd (e p) ("partprobe -d -s " ++ device) st1
           = ((w1 ++ stdout ++ w2, stderr1, None), st1'))
  (Hrun2 : RunCmd (e p) ("partprobe -d -s " ++ device) st2
           = ((stdout, stderr2, None), st2'))
  (Hw1 : allBytes asciiSpace w1 = true)
  (Hw2 : allBytes asciiSpace w2 = true) :
  fst (IsPartitionExists p device partNum st1)
  = fst (IsPartitionExists p device partNum st2).
Proof.
  rewrite (IsPartitionExists_ok p _ _ _ _ _ _ Hrun1),
    (IsPartitionExists_ok p _ _ _ _ _ _ Hrun2).
  now rewrite (TrimSpace_ws_around _ _ _ Hw1 Hw2).
Qed.

(** ** Bytes of a kind, through the cuts and the trims *)

Lemma allBytes_app (f : ascii -> bool) (a b : string) :
  allBytes f (a ++ b) = allBytes f a && allBytes f b.
Proof.
  induction a as [|x a IH]; simpl; [reflexivity|].
  now rewrite IH, andb_assoc.
Qed.

Lemma allBytes_inside (f : ascii -> bool) (a m b : string) :
  allBytes f (a ++ m ++ b) = true -> allBytes f m = true.
Proof.
  rewrite !allBytes_app, !andb_true_iff. tauto.
Qed.

Lemma allBytes_take (f : ascii -> bool) (n : nat) (s : string) :
  allBytes f s = true -> allBytes f (take n s) = true.
Proof.
  intros Hs. rewrite <- (take_drop n s), allBytes_app in Hs.
  now apply andb_true_iff in Hs.
Qed.

Lemma allBytes_drop (f : ascii -> bool) (n : nat) (s : string) :
  allBytes f s = true -> allBytes f (drop n s) = true.
Proof.
  intros Hs. rewrite <- (take_drop n s), allBytes_app in Hs.
  now apply andb_true_iff in Hs.
Qed.

Lemma allBytes_rev (f : ascii -> bool) (s : string) :
  allBytes f (rev s) = allBytes f s.
Proof.
  induction s as [|x s IH]; simpl; [reflexivity|].
  rewrite allBytes_app, IH. simpl. now rewrite andb_true_r, andb_comm.
Qed.

Lemma genSplitLoop_allBytes (f : ascii -> bool) (n : nat) (s sep : string) :
  allBytes f s = true ->
  Forall (fun x => allBytes f x = true) (genSplitLoop n s sep).
Proof.
  revert s; induction n as [|n IH]; intros s Hs; simpl.
  - now constructor.
  - destruct (Index s sep) as [m|]; [|now constructor].
    constructor; [now apply allBytes_take|].
    apply IH. now apply allBytes_drop.
Qed.

Lemma TrimSpace_allBytes (f : ascii -> bool) (s : string) :
  allBytes f s = true -> allBytes f (TrimSpace s) = true.
Proof.
  intros Hs. destruct (TrimSpace_inside s) as (a & b & Hab).
  rewrite Hab in Hs. exact (allBytes_inside _ _ _ _ Hs).
Qed.

Lemma TrimLeftSpace_allBytes (f : ascii -> bool) (s : string) :
  allBytes f s = true -> allBytes f (TrimLeftSpace s) = true.
Proof.
  intros Hs. destruct (TrimLeftSpace_suffix s) as [w Hw].
  rewrite Hw, allBytes_app in Hs. now apply andb_true_iff in Hs.
Qed.

Lemma TrimLeftSpace_idem (s : string) :
  TrimLeftSpace (TrimLeftSpace s) = TrimLeftSpace s.
Proof.
  induction s as [s IH] using string_length_ind.
  destruct (TrimLeftSpace_cases s) as [[Hs _]|(w & r & Hw & ->)].
  - now rewrite Hs.
  - rewrite TrimLeftSpace_step by assumption. apply IH.
    rewrite slength_app. apply wsEnc_length in Hw. lia.
Qed.

Lemma TrimSpace_idem (s : string) : TrimSpace (TrimSpace s) = TrimSpace s.
Proof.
  unfold TrimSpace at 2. rewrite TrimSpace_TrimRightSpace.
  unfold TrimSpace. now rewrite TrimLeftSpace_idem.
Qed.

(** ** Lower case and the trims on ASCII text *)

Lemma lowerByte_ascii (c : ascii) :
  (ord c <? utf8.RuneSelf) = true ->
  (ord (lowerByte c) <? utf8.RuneSelf) = true
  /\ asciiSpace (lowerByte c) = asciiSpace c
  /\ isUpper (lowerByte c) = false.
Proof.
  destruct c as [[] [] [] [] [] [] [] []]; vm_compute; intros Hc;
    try discriminate Hc; repeat split.
Qed.

Lemma TrimLeftSpace_ascii_cons (a : ascii) (s : string) :
  (ord a <? utf8.RuneSelf) = true ->
  TrimLeftSpace (String a s) = if asciiSpace a then TrimLeftSpace s else String a s.
Proof.
  intros Ha. apply Nat.ltb_lt in Ha. unfold utf8.RuneSelf in Ha. simpl.
  destruct (asciiSpace a); [reflexivity|].
  destruct s as [|b s2]; [reflexivity|].
  destruct (isSpace2 a b) eqn:Hab; [apply isSpace2_inv in Hab; lia|].
  destruct s2 as [|c s3]; [reflexivity|].
  destruct (isSpace3 a b c) eqn:Habc; [apply isSpace3_inv in Habc; lia | reflexivity].
Qed.

Lemma TrimLeftSpaceRev_ascii_cons (a : ascii) (s : string) :
  (ord a <? utf8.RuneSelf) = true ->
  TrimLeftSpaceRev (String a s)
  = if asciiSpace a then TrimLeftSpaceRev s else String a s.
Proof.
  intros Ha. apply Nat.ltb_lt in Ha. unfold utf8.RuneSelf in Ha. simpl.
  destruct (asciiSpace a); [reflexivity|].
  destruct s as [|b s2]; [reflexivity|].
  destruct (isSpace2 b a) eqn:Hab; [apply isSpace2_inv in Hab; lia|].
  destruct s2 as [|c s3]; [reflexivity|].
  destruct (isSpace3 c b a) eqn:Habc; [apply isSpace3_inv in Habc; lia | reflexivity].
Qed.

Lemma mapBytes_app (f : ascii -> ascii) (a b : string) :
  mapBytes f (a ++ b) = mapBytes f a ++ mapBytes f b.
Proof. induction a as [|x a IH]; simpl; [reflexivity | now rewrite IH]. Qed.

Lemma mapBytes_rev (f : ascii -> ascii) (s : string) :
  mapBytes f (rev s) = rev (mapBytes f s).
Proof.
  induction s as [|x s IH]; simpl; [reflexivity|].
  now rewrite mapBytes_app, IH.
Qed.

Lemma TrimLeftSpace_lower (s : string) :
  isASCII s = true ->
  TrimLeftSpace (mapBytes lowerByte s) = mapBytes lowerByte (TrimLeftSpace s).
Proof.
  unfold isASCII. induction s as [|a s IH]; [reflexivity|].
  simpl allBytes. intros Hs. apply andb_true_iff in Hs as [Ha Hs].
  destruct (lowerByte_ascii a Ha) as (Hla & Hsp & _).
  change (mapBytes lowerByte (String a s))
    with (String (lowerByte a) (mapBytes lowerByte s)).
  rewrite (TrimLeftSpace_ascii_cons _ _ Hla), (TrimLeftSpace_ascii_cons _ _ Ha), Hsp.
  destruct (asciiSpace a); [now apply IH | reflexivity].
Qed.

Lemma TrimLeftSpaceRev_lower (s : string) :
  isASCII s = true ->
  TrimLeftSpaceRev (mapBytes lowerByte s) = mapBytes lowerByte (TrimLeftSpaceRev s).
Proof.
  unfold isASCII. induction s as [|a s IH]; [reflexivity|].
  simpl allBytes. intros Hs. apply andb_true_iff in Hs as [Ha Hs].
  destruct (lowerByte_ascii a Ha) as (Hla & Hsp & _).
  change (mapBytes lowerByte (String a s))
    with (String (lowerByte a) (mapBytes lowerByte s)).
  rewrite (TrimLeftSpaceRev_ascii_cons _ _ Hla), (TrimLeftSpaceRev_ascii_cons _ _ Ha), Hsp.
  destruct (asciiSpace a); [now apply IH | reflexivity].
Qed.

(** On ASCII text, putting in lower case and trimming commute. *)
Lemma TrimSpace_lower (s : string) :
  isASCII s = true ->
  TrimSpace (mapBytes lowerByte s) = mapBytes lowerByte (TrimSpace s).
Proof.
  intros Hs. unfold TrimSpace, TrimRightSpace.
  rewrite (TrimLeftSpace_lower _ Hs), <- mapBytes_rev.
  rewrite TrimLeftSpaceRev_lower, mapBytes_rev; [reflexivity|].
  unfold isASCII in *. rewrite allBytes_rev. now apply TrimLeftSpace_allBytes.
Qed.

Lemma lower_no_upper (s : string) :
  isASCII s = true ->
  allBytes (fun c => negb (isUpper c)) (mapBytes lowerByte s) = true.
Proof.
  unfold isASCII. induction s as [|a s IH]; [reflexivity|].
  simpl. intros Hs. apply andb_true_iff in Hs as [Ha Hs].
  destruct (lowerByte_ascii a Ha) as (_ & _ & Hup).
  now rewrite Hup, (IH Hs).
Qed.

Section ScanNormal.
Context `{UnicodeTables}.

Lemma Split_allBytes (f : ascii -> bool) (s sep : string) :
  sep <> "" -> allBytes f s = true ->
  Forall (fun x => allBytes f x = true) (Split s sep).
Proof.
  intros Hsep Hs. rewrite Split_rounds by assumption.
  now apply genSplitLoop_allBytes.
Qed.

Lemma nth_allBytes (f : ascii -> bool) (i : nat) (l : list string) :
  Forall (fun x => allBytes f x = true) l -> allBytes f (nth i l "") = true.
Proof.
  intros Hl. revert i; induction Hl as [|x l Hx Hl IH]; intros [|i]; simpl; auto.
Qed.

(** What the scan returns from ASCII lines is trimmed and without
    upper-case letters. *)
Lemma scanLines_normal (lines : list string) (uuid : string) :
  Forall (fun l => isASCII l = true) lines ->
  scanLines lines = Some uuid ->
  TrimSpace uuid = uuid /\ allBytes (fun c => negb (isUpper c)) uuid = true.
Proof.
  intros Hl. induction Hl as [|line lines Hline Hl IH]; [discriminate|].
  cbn [scanLines].
  destruct (Contains line partitionPresentation); [|exact IH].
  destruct (1 <? List.length (Split (TrimSpace line) partitionPresentation));
    [|exact IH].
  intros [= <-].
  set (y := nth 1 (Split (TrimSpace line) partitionPresentation) "").
  assert (Hy : isASCII (TrimSpace y) = true).
  { apply TrimSpace_allBytes. apply nth_allBytes.
    apply Split_allBytes; [discriminate|]. now apply TrimSpace_allBytes. }
  unfold ToLower. rewrite Hy. split.
  - now rewrite (TrimSpace_lower _ Hy), TrimSpace_idem.
  - now apply lower_no_upper.
Qed.

End ScanNormal.

Lemma TrimSpace_length (s : string) : String.length (TrimSpace s) <= String.length s.
Proof.
  destruct (TrimSpace_inside s) as (a & b & Hab).
  rewrite Hab at 2. rewrite !slength_app. lia.
Qed.

(** An ASCII text that the trim leaves as it is, is empty or has solid
    ends. *)
Lemma TrimSpace_fixed_solid (s : string) :
  isASCII s = true -> TrimSpace s = s -> s = "" \/ solidEnds s = true.
Proof.
  intros Hs Hfix. destruct s as [|a s']; [now left|]. right.
  unfold solidEnds.
  destruct (rev (String a s')) as [|q r] eqn:Hrev.
  { apply (f_equal String.length) in Hrev. rewrite slength_rev in Hrev. discriminate. }
  assert (Es : String a s' = rev r ++ String q "").
  { rewrite <- (rev_involutive (String a s')), Hrev. reflexivity. }
  unfold isASCII in Hs.
  assert (Ha : (ord a <? utf8.RuneSelf) = true).
  { simpl in Hs. now apply andb_true_iff in Hs. }
  assert (Hq : (ord q <? utf8.RuneSelf) = true).
  { rewrite Es, allBytes_app in Hs. simpl in Hs.
    rewrite andb_true_r in Hs. now apply andb_true_iff in Hs. }
  unfold solidByte. rewrite Ha, Hq. simpl.
  destruct (asciiSpace a) eqn:Hsa.
  { exfalso. apply (f_equal String.length) in Hfix.
    unfold TrimSpace in Hfix.
    change (String a s') with (String a "" ++ s') in Hfix at 1.
    rewrite TrimLeftSpace_step in Hfix by now constructor.
    pose proof (TrimSpace_length s') as Hlen. unfold TrimSpace in Hlen.
    simpl in Hfix. lia. }
  destruct (asciiSpace q) eqn:Hsq; [|reflexivity].
  exfalso. apply (f_equal String.length) in Hfix.
  rewrite Es in Hfix at 1. rewrite TrimSpace_app_ws in Hfix by now constructor.
  pose proof (TrimSpace_length (rev r)) as Hlen.
  rewrite Es, slength_app in Hfix. simpl in Hfix. lia.
Qed.

Lemma lower_ascii (s : string) :
  isASCII s = true -> isASCII (mapBytes lowerByte s) = true.
Proof.
  unfold isASCII. induction s as [|a s IH]; [reflexivity|].
  simpl. intros Hs. apply andb_true_iff in Hs as [Ha Hs].
  destruct (lowerByte_ascii a Ha) as (Hla & _ & _).
  now rewrite Hla, (IH Hs).
Qed.

Section ScanAscii.
Context `{UnicodeTables}.

Lemma scanLines_ascii (lines : list string) (uuid : string) :
  Forall (fun l => isASCII l = true) lines ->
  scanLines lines = Some uuid -> isASCII uuid = true.
Proof.
  intros Hl. induction Hl as [|line lines Hline Hl IH]; [discriminate|].
  cbn [scanLines].
  destruct (Contains line partitionPresentation); [|exact IH].
  destruct (1 <? List.length (Split (TrimSpace line) partitionPresentation));
    [|exact IH].
  intros [= <-].
  set (y := nth 1 (Split (TrimSpace line) partitionPresentation) "").
  assert (Hy : isASCII (TrimSpace y) = true).
  { apply TrimSpace_allBytes. apply nth_allBytes.
    apply Split_allBytes; [discriminate|]. now apply TrimSpace_allBytes. }
  unfold ToLower. rewrite Hy. now apply lower_ascii.
Qed.

End ScanAscii.

(** X9: when the report of the tool is ASCII, the string that
    [GetPartitionUUID] returns is in normal form: it is empty, or its first
    and its last byte are not white space; and it holds no upper-case
    letter. *)
Theorem GetPartitionUUID_normal_form `{UnicodeTables} {St : Type} (p : Partition St)
  (device partNum stdout stderr : string) (err : option error) (st st' : St)
  (Hrun : RunCmd (e p) ("sgdisk " ++ device ++ " --info=" ++ partNum) st
          = ((stdout, stderr, err), st'))
  (Hascii : isASCII stdout = true) :
  let uuid := fst (fst (GetPartitionUUID p device partNum st)) in
  (uuid = "" \/ solidEnds uuid = true)
  /\ allBytes (fun c => negb (isUpper c)) uuid = true
  /\ TrimSpace uuid = uuid.
Proof.
  cbv zeta. rewrite (GetPartitionUUID_run p _ _ _ _ _ _ _ Hrun).
  destruct err as [err|]; [now repeat split; try left|].
  destruct (scanLines (Split stdout (String LF ""))) as [uuid|] eqn:Hscan;
    [|now repeat split; try left].
  assert (Hlines : Forall (fun l => isASCII l = true) (Split stdout (String LF "")))
    by (apply Split_allBytes; [discriminate | exact Hascii]).
  destruct (scanLines_normal _ _ Hlines Hscan) as [Hfix Hup].
  simpl fst. split; [|now split].
  apply TrimSpace_fixed_solid; [|exact Hfix].
  exact (scanLines_ascii _ _ Hlines Hscan).
Qed.

(** ** Cutting a text at a byte *)

Lemma sapp_inv_head (a x y : string) : a ++ x = a ++ y -> x = y.
Proof. induction a as [|c a IH]; simpl; [trivial|]. intros [= E]. now apply IH. Qed.

Lemma sapp_inv_tail (a b t : string) : a ++ t = b ++ t -> a = b.
Proof.
  intros E. apply (f_equal rev) in E. rewrite !rev_app in E.
  apply sapp_inv_head in E. apply (f_equal rev) in E.
  now rewrite !rev_involutive in E.
Qed.

Lemma Contains_head_byte (c : ascii) (s : string) :
  Contains (String c s) (String c "") = true.
Proof.
  apply HasPrefix_Contains. simpl. now rewrite Ascii.eqb_refl, HasPrefix_nil.
Qed.

(** Two texts without the byte [c], each followed by [c]: where the wholes
    agree, the texts agree and what follows [c] agrees. *)
Lemma cut_unique (c : ascii) (a b x y : string) :
  Contains a (String c "") = false -> Contains b (String c "") = false ->
  a ++ String c x = b ++ String c y -> a = b /\ x = y.
Proof.
  revert b; induction a as [|d a IH]; intros [|d' b] Ha Hb E; simpl in E.
  - injection E as ->. now split.
  - injection E as <- _. now rewrite Contains_head_byte in Hb.
  - injection E as -> _. now rewrite Contains_head_byte in Ha.
  - injection E as <- E.
    destruct (IH b (Contains_tail _ _ _ Ha) (Contains_tail _ _ _ Hb) E) as [-> ->].
    now split.
Qed.

(** A command of the form [pre ++ device ++ " " ++ mid ++ x], for devices
    without space, determines the device and [x]. *)
Lemma command_unique (pre mid device1 device2 x1 x2 : string) :
  Contains device1 " " = false -> Contains device2 " " = false ->
  pre ++ device1 ++ String " " (mid ++ x1) = pre ++ device2 ++ String " " (mid ++ x2) ->
  device1 = device2 /\ x1 = x2.
Proof.
  intros H1 H2 E. apply sapp_inv_head in E.
  destruct (cut_unique _ _ _ _ _ H1 H2 E) as [-> E'].
  split; [reflexivity | exact (sapp_inv_head _ _ _ E')].
Qed.

(** X10: the commands of the methods that take more than the device
    determine their arguments when the device holds no space (and, for
    [SetPartitionUUID], the partition number no colon): two requests that
    differ never give the same command.  Without the condition they may:
    deleting partition [z] of device [x ++ " rm " ++ y] and deleting
    partition [y ++ " rm " ++ z] of device [x] are one command. *)
Theorem commands_determine_arguments `{UnicodeTables}
  (device1 device2 arg1 arg2 : string)
  (Hdevice1 : Contains device1 " " = false)
  (Hdevice2 : Contains device2 " " = false) :
  (fmt.Sprintf CreatePartitionTableCmdTmpl [Str device1; Str arg1]
   = fmt.Sprintf CreatePartitionTableCmdTmpl [Str device2; Str arg2] ->
   device1 = device2 /\ arg1 = arg2)
  /\ (fmt.Sprintf CreatePartitionCmdTmpl [Str device1; Str arg1]
      = fmt.Sprintf CreatePartitionCmdTmpl [Str device2; Str arg2] ->
      device1 = device2 /\ arg1 = arg2)
  /\ (fmt.Sprintf DeletePartitionCmdTmpl [Str device1; Str arg1]
      = fmt.Sprintf DeletePartitionCmdTmpl [Str device2; Str arg2] ->
      device1 = device2 /\ arg1 = arg2)
  /\ (fmt.Sprintf GetPartitionUUIDCmdTmpl [Str device1; Str arg1]
      = fmt.Sprintf GetPartitionUUIDCmdTmpl [Str device2; Str arg2] ->
      device1 = device2 /\ arg1 = arg2)
  /\ (forall partUUID1 partUUID2,
         Contains arg1 ":" = false -> Contains arg2 ":" = false ->
         fmt.Sprintf SetPartitionUUIDCmdTmpl [Str device1; Str arg1; Str partUUID1]
         = fmt.Sprintf SetPartitionUUIDCmdTmpl [Str device2; Str arg2; Str partUUID2] ->
         device1 = device2 /\ arg1 = arg2 /\ partUUID1 = partUUID2)
  /\ (forall x y z,
         fmt.Sprintf DeletePartitionCmdTmpl [Str (x ++ " rm " ++ y); Str z]
         = fmt.Sprintf DeletePartitionCmdTmpl [Str x; Str (y ++ " rm " ++ z)]).
Proof.
  split; [|split; [|split; [|split; [|split]]]].
  - rewrite !Sprintf_CreatePartitionTableCmdTmpl.
    exact (command_unique "parted -s " "mklabel " _ _ _ _ Hdevice1 Hdevice2).
  - rewrite !Sprintf_CreatePartitionCmdTmpl. intros E.
    destruct (command_unique "parted -s " "mkpart --align optimal " _ _ _ _
                Hdevice1 Hdevice2 E) as [-> E'].
    split; [reflexivity | exact (sapp_inv_tail _ _ _ E')].
  - rewrite !Sprintf_DeletePartitionCmdTmpl.
    exact (command_unique "parted -s " "rm " _ _ _ _ Hdevice1 Hdevice2).
  - rewrite !Sprintf_GetPartitionUUIDCmdTmpl.
    exact (command_unique "sgdisk " "--info=" _ _ _ _ Hdevice1 Hdevice2).
  - intros partUUID1 partUUID2 Harg1 Harg2.
    rewrite !Sprintf_SetPartitionUUIDCmdTmpl. intros E.
    destruct (command_unique "sgdisk " "--partition-guid=" _ _ _ _
                Hdevice1 Hdevice2 E) as [-> E'].
    destruct (cut_unique _ _ _ _ _ Harg1 Harg2 E') as [-> ->].
    now repeat split.
  - intros x y z. rewrite !Sprintf_DeletePartitionCmdTmpl.
    now rewrite !sapp_assoc.
Qed.

(** * The GUID that [GetPartitionUUID] reads *)

(** The trim of a text with solid ends between ASCII white space is that
    text. *)
Lemma TrimSpace_exact (w1 g w2 : string) :
  allBytes asciiSpace w1 = true -> allBytes asciiSpace w2 = true ->
  solidEnds g = true ->
  TrimSpace (w1 ++ g ++ w2) = g.
Proof.
  intros H1 H2 Hg. rewrite (TrimSpace_ws_around _ _ _ H1 H2).
  pose proof (TrimSpace_around "" g "" Hg) as Hs.
  simpl in Hs. now rewrite !sapp_nil_r in Hs.
Qed.

(** C5: with a succeeding executor, when a line of the report holds the
    label "Partition unique GUID:" followed by a GUID, and no line before it
    holds the label, [GetPartitionUUID] returns what follows the label,
    without the white space around it and in lower case.  When what follows
    the label is a text [g] that starts and ends with bytes that are not
    white space, with ASCII white space before and after it, the result is
    [g] in lower case: "5209cfd8-3ab1-4720-bcea-dfa80315ec92" for the line
    "Partition unique GUID: 5209CFD8-3AB1-4720-BCEA-DFA80315EC92", also
    when the line is indented and padded and ends with a carriage return. *)
Theorem GetPartitionUUID_first_match `{UnicodeTables} {St : Type} (p : Partition St)
  (device partNum stdout stderr : string) (st st' : St)
  (before after : list string) (pre guid : string)
  (Hrun : RunCmd (e p) ("sgdisk " ++ device ++ " --info=" ++ partNum) st
          = ((stdout, stderr, None), st'))
  (Hlines : Split stdout (String LF "")
            = (before ++ (pre ++ partitionPresentation ++ guid)%string :: after)%list)
  (Hbefore : forall l, In l before -> Contains l partitionPresentation = false)
  (Hpre : Contains pre partitionPresentation = false)
  (Hguid : Contains guid partitionPresentation = false) :
  GetPartitionUUID p device partNum st = ((ToLower (TrimSpace guid), None), st')
  /\ (forall w1 g w2,
         guid = w1 ++ g ++ w2 ->
         allBytes asciiSpace w1 = true -> allBytes asciiSpace w2 = true ->
         solidEnds g = true ->
         GetPartitionUUID p device partNum st = ((ToLower g, None), st')
         /\ (isASCII g = true ->
             String.length (ToLower g) = String.length g
             /\ allBytes (fun c => negb (isUpper c)) (ToLower g) = true))
  /\ fst (GetPartitionUUID (NewPartition (stubExecutor sgdiskInfoExample stderr None))
            device partNum tt)
     = ("5209cfd8-3ab1-4720-bcea-dfa80315ec92", None)
  /\ fst (GetPartitionUUID (NewPartition (stubExecutor sgdiskInfoPadded stderr None))
            device partNum tt)
     = ("5209cfd8-3ab1-4720-bcea-dfa80315ec92", None).
Proof.
  assert (Hres : GetPartitionUUID p device partNum st
                 = ((ToLower (TrimSpace guid), None), st')).
  { rewrite (GetPartitionUUID_run p _ _ _ _ _ _ _ Hrun), Hlines.
    now rewrite (scanLines_skip _ _ Hbefore), (scanLines_label _ _ _ Hpre Hguid). }
  split; [exact Hres|]. split; [|split].
  - intros w1 g w2 -> H1 H2 Hg. split.
    + now rewrite Hres, (TrimSpace_exact _ _ _ H1 H2 Hg).
    + intros Hascii. unfold ToLower. rewrite Hascii. split.
      * clear. induction g as [|c g IH]; simpl; [reflexivity | now rewrite IH].
      * now apply lower_no_upper.
  - erewrite GetPartitionUUID_run by (simpl; reflexivity). reflexivity.
  - erewrite GetPartitionUUID_run by (simpl; reflexivity). reflexivity.
Qed.

(** * The theorems at concrete inputs *)

(** An executor that fails whatever it is asked. *)
Lemma executor_failure_propagates_witness :
  let p := NewPartition (stubExecutor "" "Error: Could not stat device"
                           (Some (errors.New "exit status 1"))) in
  snd (fst (RunCmd (e p) "partprobe -d -s /dev/sdy" tt)) <> None
  /\ (exists err,
         fst (@IsPartitionExists asciiTables unit p "/dev/sdy" "1" tt) = (false, Some err)).
Proof.
  intros p.
  assert (Hfail : snd (fst (RunCmd (e p) "partprobe -d -s /dev/sdy" tt)) <> None)
    by discriminate.
  split; [exact Hfail|].
  exact (proj1 (@executor_failure_propagates asciiTables unit p tt) "/dev/sdy" "1" Hfail).
Defined.

(** The probe of a disk with two partitions. *)
Lemma IsPartitionExists_segment_witness :
  let p := NewPartition (stubExecutor "/dev/sdy: gpt partitions 1 2" "" None) in
  RunCmd (e p) "partprobe -d -s /dev/sdy" tt = (("/dev/sdy: gpt partitions 1 2", "", None), tt)
  /\ exists b : bool,
       @IsPartitionExists asciiTables unit p "/dev/sdy" "1" tt = ((b, None), tt)
       /\ (b = true <->
           exists seg,
             segmentAfter (TrimSpace "/dev/sdy: gpt partitions 1 2") "partitions" = Some seg
             /\ seg <> "").
Proof.
  intros p. split; [reflexivity|].
  exact (proj1 (@IsPartitionExists_segment asciiTables unit p
                  "/dev/sdy" "1" "/dev/sdy: gpt partitions 1 2" "" tt tt eq_refl)).
Defined.

(** The probe of a device that does not exist prints nothing on its
    standard output. *)
Lemma IsPartitionExists_without_token_witness :
  let p := NewPartition (stubExecutor "" "Error: Could not stat device" None) in
  Contains "" "partitions" = false
  /\ @IsPartitionExists asciiTables unit p "/dev/sdy" "1" tt = ((false, None), tt)
  /\ @Split asciiTables (TrimSpace "") "partitions" = [TrimSpace ""].
Proof.
  intros p. split; [reflexivity|].
  exact (@IsPartitionExists_without_token asciiTables unit p
           "/dev/sdy" "1" "" "Error: Could not stat device" tt tt eq_refl eq_refl).
Defined.

(** A spy in front of a stub that succeeds. *)
Lemma SyncPartitionTable_empty_device_witness :
  @SyncPartitionTable asciiTables _
    (NewPartition (spyExecutor (stubExecutor "" "" None))) "" ([], tt)
  = (None, (["partprobe "], tt)).
Proof.
  exact (proj2 (@SyncPartitionTable_empty_device asciiTables unit
                  (stubExecutor "" "" None) "" "" [] tt tt eq_refl)).
Defined.

(** The tool fails and says why on its standard error. *)
Lemma DeletePartition_wraps_error_witness :
  let p := NewPartition (stubExecutor "" "Error: Partition does not exist."
                           (Some (errors.New "exit status 1"))) in
  let msg := "unable to delete partition "
             ++ String dquote ("1" ++ String dquote
                  " from device /dev/sda: Error: Partition does not exist., error: exit status 1") in
  @DeletePartition asciiTables unit p "/dev/sda" "1" tt = (Some (errors.New msg), tt)
  /\ Contains msg "/dev/sda" = true
  /\ Contains msg "1" = true
  /\ Contains msg "Error: Partition does not exist." = true
  /\ @CreatePartition asciiTables unit p "/dev/sda" "p1" tt
     = (Some (errors.New "exit status 1"), tt)
  /\ @SetPartitionUUID asciiTables unit p "/dev/sda" "1"
       "5209cfd8-3ab1-4720-bcea-dfa80315ec92" tt
     = (Some (errors.New "exit status 1"), tt).
Proof.
  intros p msg.
  destruct (@DeletePartition_wraps_error asciiTables unit p
              "/dev/sda" "1" "p1" "5209cfd8-3ab1-4720-bcea-dfa80315ec92" tt)
    as (Hrm & Hmk & Hset).
  pose proof (Hrm "" "Error: Partition does not exist." (errors.New "exit status 1") tt
                eq_refl) as Hdel.
  cbv zeta in Hdel.
  destruct Hdel as (Hdel & Hdev & _ & Herr & _ & Hplain).
  split; [exact Hdel|]. split; [exact Hdev|].
  split; [exact (proj2 (Hplain eq_refl))|]. split; [exact Herr|].
  split.
  - exact (Hmk "" "Error: Partition does not exist." (errors.New "exit status 1") tt
             eq_refl).
  - exact (Hset "" "Error: Partition does not exist." (errors.New "exit status 1") tt
             eq_refl).
Defined.

(** C8 as it is stated fails: for the partition number that is the digit 1
    and a double quote, [%#v] prints the double quote after a backslash, and
    the message does not hold the number. *)
Lemma DeletePartition_quoted_number_counterexample :
  let partNum := String "1" (String dquote "") in
  let msg := "unable to delete partition "
             ++ String dquote ("1" ++ String backslash (String dquote (String dquote
                  " from device /dev/sda: Error: Partition does not exist., error: exit status 1"))) in
  @DeletePartition asciiTables unit
    (NewPartition (stubExecutor "" "Error: Partition does not exist."
                     (Some (errors.New "exit status 1"))))
    "/dev/sda" partNum tt
  = (Some (errors.New msg), tt)
  /\ Contains msg partNum = false.
Proof. split; reflexivity. Qed.

(** The probe of a disk with an msdos table. *)
Lemma GetPartitionTableType_single_space_witness :
  let p := NewPartition (stubExecutor "/dev/sda: msdos partitions 1" "" None) in
  segmentAfter "/dev/sda: msdos partitions 1" " " = Some "msdos"
  /\ @GetPartitionTableType asciiTables unit p "/dev/sda" tt = (("msdos", None), tt).
Proof.
  intros p. split; [reflexivity|].
  refine (proj1 (@GetPartitionTableType_single_space asciiTables unit p
                   "/dev/sda" "/dev/sda: msdos partitions 1" "" tt tt eq_refl)
            "msdos" eq_refl _).
  discriminate.
Defined.

(** C4 as it is stated fails: the output "/dev/sda: msdos" with its line
    feed has the two tokens "/dev/sda:" and "msdos", and the method returns
    "msdos" with the line feed; the output " /dev/sda:" has one token, and
    the method returns it with a nil error. *)
Lemma GetPartitionTableType_whitespace_counterexample :
  let stdout1 := "/dev/sda: msdos" ++ String LF "" in
  let stdout2 := " /dev/sda:" in
  whitespaceTokens stdout1 = ["/dev/sda:"; "msdos"]
  /\ @GetPartitionTableType asciiTables unit (NewPartition (stubExecutor stdout1 "" None))
       "/dev/sda" tt = (("msdos" ++ String LF "", None), tt)
  /\ "msdos" ++ String LF "" <> "msdos"
  /\ whitespaceTokens stdout2 = ["/dev/sda:"]
  /\ @GetPartitionTableType asciiTables unit (NewPartition (stubExecutor stdout2 "" None))
       "/dev/sda" tt = (("/dev/sda:", None), tt).
Proof. repeat split. discriminate. Qed.

(** The padded report, read by [GetPartitionUUID]: three spaces stand
    before the GUID, two spaces and a carriage return after it. *)
Lemma GetPartitionUUID_first_match_witness :
  @Split asciiTables sgdiskInfoPadded (String LF "")
  = ["Partition GUID code: 0FC63DAF-8483-4772-8E79-3D69D8477DE4 (Linux filesystem)"
     ++ String CR "";
     "  " ++ partitionPresentation
     ++ ("   " ++ "5209CFD8-3AB1-4720-BCEA-DFA80315EC92" ++ "  " ++ String CR "");
     "Partition name: ''"]
  /\ @GetPartitionUUID asciiTables unit
       (NewPartition (stubExecutor sgdiskInfoPadded "" None)) "/dev/sdy" "1" tt
     = (("5209cfd8-3ab1-4720-bcea-dfa80315ec92", None), tt).
Proof.
  split; [reflexivity|].
  refine (proj1 (proj1 (proj2 (@GetPartitionUUID_first_match asciiTables unit
                   (NewPartition (stubExecutor sgdiskInfoPadded "" None))
                   "/dev/sdy" "1" sgdiskInfoPadded "" tt tt
                   ["Partition GUID code: 0FC63DAF-8483-4772-8E79-3D69D8477DE4 (Linux filesystem)"
                    ++ String CR ""]
                   ["Partition name: ''"]
                   "  " ("   " ++ "5209CFD8-3AB1-4720-BCEA-DFA80315EC92" ++ "  " ++ String CR "")
                   eq_refl eq_refl _ eq_refl eq_refl))
            "   " "5209CFD8-3AB1-4720-BCEA-DFA80315EC92" ("  " ++ String CR "")
            eq_refl eq_refl eq_refl eq_refl)).
  intros l [<-|[]]. reflexivity.
Defined.

(** A report without the label. *)
Lemma GetPartitionUUID_no_label_witness :
  @GetPartitionUUID asciiTables unit
    (NewPartition (stubExecutor "Problem opening /dev/sdy for reading!" "" None))
    "/dev/sdy" "1" tt
  = (("", Some (errors.New "unable to get partition GUID for device /dev/sdy")), tt).
Proof.
  refine (@GetPartitionUUID_no_label asciiTables unit
            (NewPartition (stubExecutor "Problem opening /dev/sdy for reading!" "" None))
            "/dev/sdy" "1" "Problem opening /dev/sdy for reading!" "" tt tt eq_refl _).
  intros l [<-|[]]. reflexivity.
Defined.

(** An executor that fails, once more. *)
Lemma failure_wrapped_or_not_witness :
  let p := NewPartition (stubExecutor "" "Error: Could not stat device"
                           (Some (errors.New "exit status 1"))) in
  @CreatePartitionTable asciiTables unit p "/dev/sdy" "gpt" tt
  = (Some (errors.New "unable to create partition table for device /dev/sdy"), tt)
  /\ @GetPartitionTableType asciiTables unit p "/dev/sdy" tt
     = (("", Some (errors.New "unable to get partition table for device /dev/sdy")), tt)
  /\ @GetPartitionUUID asciiTables unit p "/dev/sdy" "1" tt
     = (("", Some (errors.New "exit status 1")), tt)
  /\ @SyncPartitionTable asciiTables unit p "/dev/sdy" tt
     = (Some (errors.New "exit status 1"), tt).
Proof.
  intros p.
  destruct (@failure_wrapped_or_not asciiTables unit p "/dev/sdy" "1" tt)
    as (Htable & Htype & Huuid & Hsync).
  split; [|split; [|split]].
  - exact (Htable "" "Error: Could not stat device" (errors.New "exit status 1") tt eq_refl).
  - exact (Htype "" "Error: Could not stat device" (errors.New "exit status 1") tt eq_refl).
  - exact (Huuid "" "Error: Could not stat device" (errors.New "exit status 1") tt eq_refl).
  - exact (Hsync "" "Error: Could not stat device" (errors.New "exit status 1") tt eq_refl).
Defined.

(** The report of the example has a line with the label. *)
Lemma GetPartitionUUID_succeeds_iff_label_witness :
  snd (fst (@GetPartitionUUID asciiTables unit
              (NewPartition (stubExecutor sgdiskInfoExample "" None)) "/dev/sdy" "1" tt))
  = None
  <-> exists l, In l (@Split asciiTables sgdiskInfoExample (String LF ""))
                /\ Contains l partitionPresentation = true.
Proof.
  exact (@GetPartitionUUID_succeeds_iff_label asciiTables unit
           (NewPartition (stubExecutor sgdiskInfoExample "" None))
           "/dev/sdy" "1" sgdiskInfoExample "" tt tt eq_refl).
Defined.

(** The probe of a disk with two partitions, once more. *)
Lemma IsPartitionExists_true_remainder_witness :
  Contains "/dev/sdy: gpt partitions 1 2" "partitions" = true
  /\ exists rest,
       remainderAfter (TrimSpace "/dev/sdy: gpt partitions 1 2") "partitions" = Some rest
       /\ rest <> "".
Proof.
  exact (@IsPartitionExists_true_remainder asciiTables unit
           (NewPartition (stubExecutor "/dev/sdy: gpt partitions 1 2" "" None))
           "/dev/sdy" "1" "/dev/sdy: gpt partitions 1 2" "" tt tt eq_refl eq_refl).
Defined.

(** The line of a disk with an msdos table and two partitions, ended by a
    line feed; and the line of a disk without partitions, ended by a
    space. *)
Lemma probe_line_witness :
  let p := NewPartition (stubExecutor ("/dev/sda: msdos partitions 1 2" ++ String LF "")
                           "" None) in
  let q := NewPartition (stubExecutor "/dev/sdy: gpt partitions " "" None) in
  (@GetPartitionTableType asciiTables unit p "/dev/sda" tt = (("msdos", None), tt)
   /\ @IsPartitionExists asciiTables unit p "/dev/sda" "1" tt = ((true, None), tt))
  /\ (@GetPartitionTableType asciiTables unit q "/dev/sdy" tt = (("gpt", None), tt)
      /\ @IsPartitionExists asciiTables unit q "/dev/sdy" "1" tt = ((false, None), tt)).
Proof.
  intros p q. split.
  - exact (@probe_line asciiTables unit p
             "/dev/sda" "1" "/dev/sda" "msdos" " 1 2" (String LF "") "" tt tt
             eq_refl eq_refl eq_refl eq_refl eq_refl eq_refl
             (or_intror (ex_intro _ " 1 "
                           (ex_intro _ "2"%char (conj eq_refl eq_refl))))).
  - exact (@probe_line asciiTables unit q
             "/dev/sdy" "1" "/dev/sdy" "gpt" "" " " "" tt tt
             eq_refl eq_refl eq_refl eq_refl eq_refl eq_refl (or_introl eq_refl)).
Defined.

(** The same line with and without the line feed that ends it. *)
Lemma IsPartitionExists_ignores_outer_space_witness :
  fst (@IsPartitionExists asciiTables string (NewPartition echoExecutor) "/dev/sdy" "1"
         ("/dev/sdy: gpt partitions 1 2" ++ String LF ""))
  = fst (@IsPartitionExists asciiTables string (NewPartition echoExecutor) "/dev/sdy" "1"
           "/dev/sdy: gpt partitions 1 2").
Proof.
  exact (@IsPartitionExists_ignores_outer_space asciiTables string
           (NewPartition echoExecutor) "/dev/sdy" "1"
           "/dev/sdy: gpt partitions 1 2" "" (String LF "") "" ""
           ("/dev/sdy: gpt partitions 1 2" ++ String LF "")
           ("/dev/sdy: gpt partitions 1 2" ++ String LF "")
           "/dev/sdy: gpt partitions 1 2" "/dev/sdy: gpt partitions 1 2"
           eq_refl eq_refl eq_refl eq_refl).
Defined.

(** The GUID read from the padded report: the spaces and the carriage
    return after it are not in the result. *)
Lemma GetPartitionUUID_normal_form_witness :
  let uuid := "5209cfd8-3ab1-4720-bcea-dfa80315ec92" in
  isASCII sgdiskInfoPadded = true
  /\ fst (fst (@GetPartitionUUID asciiTables unit
                 (NewPartition (stubExecutor sgdiskInfoPadded "" None)) "/dev/sdy" "1" tt))
     = uuid
  /\ (uuid = "" \/ solidEnds uuid = true)
  /\ allBytes (fun c => negb (isUpper c)) uuid = true
  /\ TrimSpace uuid = uuid.
Proof.
  intros uuid. split; [reflexivity|]. split; [reflexivity|].
  exact (@GetPartitionUUID_normal_form asciiTables unit
           (NewPartition (stubExecutor sgdiskInfoPadded "" None))
           "/dev/sdy" "1" sgdiskInfoPadded "" None tt tt eq_refl eq_refl).
Defined.

(** Two devices without space. *)
Lemma commands_determine_arguments_witness :
  Contains "/dev/sda" " " = false
  /\ Contains "/dev/sdb" " " = false
  /\ (@fmt.Sprintf asciiTables DeletePartitionCmdTmpl [Str "/dev/sda"; Str "1"]
      = @fmt.Sprintf asciiTables DeletePartitionCmdTmpl [Str "/dev/sdb"; Str "2"] ->
      "/dev/sda" = "/dev/sdb" /\ "1" = "2").
Proof.
  split; [reflexivity|]. split; [reflexivity|].
  exact (proj1 (proj2 (proj2 (@commands_determine_arguments asciiTables
                                "/dev/sda" "/dev/sdb" "1" "2" eq_refl eq_refl)))).
Defined.
